(** * Downsampling of one-dimensional series

    A shallow embedding of [holoviews/operation/downsampling.py]:
    the area argmax [_argmax_area], the Largest-Triangle-Three-Buckets
    selector [_lttb], the stride selector [_nth_point], the registry
    [_ALGORITHMS] and the operation [downsample1d._process].

    Conventions of the embedding.
    - Python integers are [Z]; a one-dimensional array is a [list]; Python
      indexing (negative indices counted from the end, [IndexError] out of
      range) and slicing (bounds clamped) are written out in [getitem],
      [setitem] and [py_slice].
    - A call either returns a value or raises: [Result] is the error monad,
      [exn] the exception classes that the modelled statements can raise.
    - The function bodies are read as CPython runs them, that is with
      [njit] the identity (the [except] branch of the import of numba).
    - float64 arithmetic is an interface, [Float64], with two instances:
      [Q] (exact arithmetic: every operation returns the rational result,
      there is no NaN and no infinity) and [spec_float] at precision 53 and
      exponent bound 1024 (IEEE binary64, the arithmetic NumPy uses).  Every
      definition of the program is written once, over the interface.
    - Left out: the order in which NumPy adds the elements of a mean (the
      model adds from left to right, which is the same number in exact
      arithmetic), integers beyond the range of int64 and of float64, and a
      boolean first dimension.

    The properties of the index structure of a selection hold in any
    arithmetic; those that say which point is selected, and the closed form
    of the offset table, are stated in exact arithmetic, with instances in
    binary64. *)

From Stdlib Require Import String ZArith QArith Qround Qabs Qfield List Bool Lia.
From Stdlib Require Import Floats.SpecFloat.
Import ListNotations.

#[local] Open Scope Z_scope.

(** ** Exceptions and results *)

Inductive exn : Set :=
| ZeroDivisionError
| IndexError
| ValueError
| NameError
| KeyError
| TypeError.

Inductive Result (A : Type) : Type :=
| Ok (a : A)
| Raise (e : exn).

Arguments Ok {A} a.
Arguments Raise {A} e.

Definition bind {A B : Type} (c : Result A) (k : A -> Result B) : Result B :=
  match c with
  | Ok a => k a
  | Raise e => Raise e
  end.

Notation "x <- c ;; k" := (bind c (fun x => k))
  (at level 61, c at next level, right associativity).
Notation "' p <- c ;; k" := (bind c (fun x => let p := x in k))
  (at level 61, p pattern, c at next level, right associativity).

(** ** float64 arithmetic *)

Class Float64 (F : Type) : Type := {
  of_int : Z -> F;             (* conversion of a Python int *)
  fadd : F -> F -> F;
  fsub : F -> F -> F;
  fmul : F -> F -> F;
  fdiv : F -> F -> F;
  fabs : F -> F;
  fleb : F -> F -> bool;       (* [<=], false as soon as one side is a NaN *)
  fisnan : F -> bool;
  fceil : F -> option Z;       (* ceiling; [None] on a NaN or an infinity *)
  ftrunc : F -> Z              (* the cast to int64: rounding toward zero *)
}.

Definition fis_zero {F} `{Float64 F} (v : F) : bool :=
  fleb v (of_int 0) && fleb (of_int 0) v.

(** Exact arithmetic. *)

Definition Qtrunc (q : Q) : Z :=
  if (0 <=? Qnum q)%Z then Qfloor q else Qceiling q.

#[global] Instance exact_Q : Float64 Q := {
  of_int := inject_Z;
  fadd := Qplus;
  fsub := Qminus;
  fmul := Qmult;
  fdiv := Qdiv;
  fabs := Qabs;
  fleb := Qle_bool;
  fisnan := fun _ => false;
  fceil := fun q => Some (Qceiling q);
  ftrunc := Qtrunc
}.

(** IEEE binary64, on the standard library's specification of floats.  A
    finite float is [(-1)^s * m * 2^e]. *)

Module Binary64.

Definition prec : Z := 53.
Definition emax : Z := 1024.

Definition to_Z_ceil (f : spec_float) : option Z :=
  match f with
  | S754_zero _ => Some 0
  | S754_finite s m e =>
      Some (if (0 <=? e)%Z
            then (if s then - (Zpos m * 2 ^ e) else Zpos m * 2 ^ e)
            else (if s then - (Zpos m / 2 ^ (- e))
                  else - ((- Zpos m) / 2 ^ (- e))))
  | S754_infinity _ | S754_nan => None
  end.

(* A NaN or an infinity is cast to the least int64, as x86-64 does; a
   finite value beyond the int64 range is left as it is. *)
Definition to_Z_trunc (f : spec_float) : Z :=
  match f with
  | S754_zero _ => 0
  | S754_finite s m e =>
      let a := if (0 <=? e)%Z then Zpos m * 2 ^ e else Zpos m / 2 ^ (- e) in
      if s then - a else a
  | S754_infinity _ | S754_nan => - 2 ^ 63
  end.

Definition is_nan (f : spec_float) : bool :=
  match f with S754_nan => true | _ => false end.

#[global] Instance binary64 : Float64 spec_float := {
  of_int := fun z => binary_normalize prec emax z 0 false;
  fadd := SFadd prec emax;
  fsub := SFsub prec emax;
  fmul := SFmul prec emax;
  fdiv := SFdiv prec emax;
  fabs := SFabs;
  fleb := SFleb;
  fisnan := is_nan;
  fceil := to_Z_ceil;
  ftrunc := to_Z_trunc
}.

End Binary64.

(** ** Python sequences *)

Definition len {A} (l : list A) : Z := Z.of_nat (List.length l).

(** [range(n)]: 0, 1, ..., n-1, empty when [n <= 0]. *)
Definition range (n : Z) : list Z := map Z.of_nat (seq 0 (Z.to_nat n)).

(** The position that index [i] denotes in a sequence of [n] elements. *)
Definition py_index (n i : Z) : Result nat :=
  if (0 <=? i) && (i <? n) then Ok (Z.to_nat i)
  else if (- n <=? i) && (i <? 0) then Ok (Z.to_nat (i + n))
  else Raise IndexError.

(** [l[i]]. *)
Definition getitem {A} (l : list A) (i : Z) : Result A :=
  k <- py_index (len l) i ;;
  match nth_error l k with
  | Some v => Ok v
  | None => Raise IndexError
  end.

Fixpoint update {A} (l : list A) (k : nat) (v : A) : list A :=
  match l, k with
  | [], _ => []
  | _ :: t, O => v :: t
  | h :: t, S k' => h :: update t k' v
  end.

(** [l[i] = v]. *)
Definition setitem {A} (l : list A) (i : Z) (v : A) : Result (list A) :=
  k <- py_index (len l) i ;;
  Ok (update l k v).

(** A slice bound, as [slice.indices] clamps it. *)
Definition clamp (n b : Z) : Z :=
  let b' := if b <? 0 then b + n else b in
  Z.max 0 (Z.min n b').

(** [l[lo:hi]]. *)
Definition py_slice {A} (l : list A) (lo hi : Z) : list A :=
  let lo' := clamp (len l) lo in
  let hi' := clamp (len l) hi in
  firstn (Z.to_nat (hi' - lo')) (skipn (Z.to_nat lo') l).

(** ** NumPy *)

(** [np.arange(start, stop, step)] for integers [start] and [stop] and a
    float [step].  NumPy computes the length as the ceiling of
    [(stop - start) / step] (a Python division, [ZeroDivisionError] on a zero
    step), stores [start] and [start + step] and fills cell [i >= 2] with
    [start + i * delta], where [delta] is the difference of the first two
    cells; its documentation says so: the step that populates the array is
    [dtype(start + step) - dtype(start)] and not [step]. *)
Definition np_arange {F} `{Float64 F} (start stop : Z) (step : F)
  : Result (list F) :=
  if fis_zero step then Raise ZeroDivisionError else
  match fceil (fdiv (of_int (stop - start)) step) with
  | None => Raise ValueError
  | Some length =>
      let first := of_int start in
      let next := fadd (of_int start) step in
      let delta := fsub next first in
      Ok (map (fun i => if i =? 0 then first
                        else if i =? 1 then next
                        else fadd first (fmul (of_int i) delta))
              (range length))
  end.

(** [a.astype(np.int64)]. *)
Definition astype_int64 {F} `{Float64 F} (a : list F) : list Z :=
  map ftrunc a.

(** [np.empty(n, dtype="int64")] returns [n] cells that are not initialised:
    cell [k] holds whatever [uninit k] is. *)
Class Uninit : Type := uninit : nat -> Z.

Definition np_empty `{Uninit} (n : Z) : Result (list Z) :=
  if n <? 0 then Raise ValueError
  else Ok (map uninit (seq 0 (Z.to_nat n))).

(** [a.mean()]: the sum over the number of elements; on an empty array the
    quotient of zero by zero (a NaN in binary64). *)
Definition np_sum {F} `{Float64 F} (a : list F) : F :=
  fold_left fadd a (of_int 0).

Definition np_mean {F} `{Float64 F} (a : list F) : F :=
  fdiv (np_sum a) (of_int (len a)).

(** [a + b] on two one-dimensional arrays: element by element, an array of
    one element being stretched to the length of the other. *)
Definition broadcast_add {F} `{Float64 F} (a b : list F) : Result (list F) :=
  if len a =? len b then Ok (map (fun p => fadd (fst p) (snd p)) (combine a b))
  else match a, b with
       | [u], _ => Ok (map (fun v => fadd u v) b)
       | _, [v] => Ok (map (fun u => fadd u v) a)
       | _, _ => Raise ValueError
       end.

(** [a.argmax()]: the position of the first maximum; a NaN counts as the
    maximum and ends the scan; [ValueError] on an empty array. *)
Fixpoint argmax_from {F} `{Float64 F} (a : list F) (i : Z) (mp : F) (mi : Z) : Z :=
  match a with
  | [] => mi
  | v :: t =>
      if fleb v mp then argmax_from t (i + 1) mp mi
      else if fisnan v then i
      else argmax_from t (i + 1) v i
  end.

Definition argmax {F} `{Float64 F} (a : list F) : Result Z :=
  match a with
  | [] => Raise ValueError
  | v :: t => Ok (if fisnan v then 0 else argmax_from t 1 v 0)
  end.

(** ** The selectors *)

Definition _argmax_area {F} `{Float64 F}
  (prev_x prev_y avg_next_x avg_next_y : F) (x_bucket y_bucket : list F)
  : Result Z :=
  s <- broadcast_add
         (map (fun xc => fmul xc (fsub prev_y avg_next_y)) x_bucket)
         (map (fun yc => fmul yc (fsub avg_next_x prev_x)) y_bucket) ;;
  argmax
    (map fabs
       (map (fun v => fadd v (fsub (fmul prev_x avg_next_y)
                                   (fmul avg_next_x prev_y))) s)).

(** [for i in range(n): state = body i state]. *)
Fixpoint for_each {S} (body : Z -> S -> Result S) (l : list Z) (s : S)
  : Result S :=
  match l with
  | [] => Ok s
  | i :: t => s' <- body i s ;; for_each body t s'
  end.

(** The offset table of [_lttb]: the first two statements of its body; the
    division of two Python integers raises on a zero divisor. *)
Definition block_size {F} `{Float64 F} (n n_out : Z) : F :=
  fdiv (of_int (n - 2)) (of_int (n_out - 2)).

Definition lttb_offset {F} `{Float64 F} (n n_out : Z) : Result (list Z) :=
  if n_out - 2 =? 0 then Raise ZeroDivisionError else
  a <- np_arange 1 n (block_size n n_out) ;;
  Ok (astype_int64 a).

(** One turn of the loop of [_lttb]; the state is [(a, sampled_x)]. *)
Definition lttb_step {F} `{Float64 F} (x y : list F) (offset : list Z)
  (i : Z) (st : Z * list Z) : Result (Z * list Z) :=
  let '(a, sampled_x) := st in
  prev_x <- getitem x a ;;
  prev_y <- getitem y a ;;
  o1 <- getitem offset (i + 1) ;;
  o2 <- getitem offset (i + 2) ;;
  let avg_next_x := np_mean (py_slice x o1 o2) in
  let avg_next_y := np_mean (py_slice y o1 o2) in
  o0 <- getitem offset i ;;
  j <- _argmax_area prev_x prev_y avg_next_x avg_next_y
         (py_slice x o0 o1) (py_slice y o0 o1) ;;
  let a := j + o0 in
  sampled_x <- setitem sampled_x (i + 1) a ;;
  Ok (a, sampled_x).

Definition _lttb {F} {FA : Float64 F} {U : Uninit} (x y : list F) (n_out : Z)
  : Result (list Z) :=
  offset <- lttb_offset (len y) n_out ;;
  sampled_x <- np_empty n_out ;;
  sampled_x <- setitem sampled_x 0 0 ;;
  sampled_x <- setitem sampled_x (-1) (len x - 1) ;;
  '(a, sampled_x) <- for_each (lttb_step x y offset) (range (n_out - 3))
                              (0, sampled_x) ;;
  prev_x <- getitem x a ;;
  prev_y <- getitem y a ;;
  last_x <- getitem x (-1) ;;
  last_y <- getitem y (-1) ;;
  o2 <- getitem offset (-2) ;;
  o1 <- getitem offset (-1) ;;
  j <- _argmax_area prev_x prev_y last_x last_y
         (py_slice x o2 o1) (py_slice y o2 o1) ;;
  setitem sampled_x (-2) (j + o2).

(** ** Names and arrays with a dtype *)

(** The arrays that [dimension_values] hands to the operation are float64 or
    boolean; int8 is what the cast of a boolean array yields. *)
Inductive ndarray (F : Type) : Type :=
| float64_array (a : list F)
| bool_array (a : list bool)
| int8_array (a : list Z).

Arguments float64_array {F} a.
Arguments bool_array {F} a.
Arguments int8_array {F} a.

Definition is_bool_dtype {F} (a : ndarray F) : bool :=
  match a with bool_array _ => true | _ => false end.

(** [a.astype(np.int8)] on a boolean array: [False] is 0 and [True] is 1. *)
Definition astype_int8 {F} (a : ndarray F) : ndarray F :=
  match a with
  | bool_array b => int8_array (map Z.b2z b)
  | _ => a
  end.

Definition ndarray_len {F} (a : ndarray F) : Z :=
  match a with
  | float64_array l => len l
  | bool_array l => len l
  | int8_array l => len l
  end.

(** The float64 values with which an array enters the arithmetic of
    [_lttb]: NumPy promotes int8 operands to float64; it refuses to subtract
    two booleans, which is raised here as soon as the array is an operand. *)
Definition operand {F} `{Float64 F} (a : ndarray F) : Result (list F) :=
  match a with
  | float64_array l => Ok l
  | int8_array l => Ok (map of_int l)
  | bool_array _ => Raise TypeError
  end.

(** What a name can be bound to. *)
Inductive object (F : Type) : Type :=
| Ndarray (a : ndarray F)
| Int (n : Z)
| Opaque.                      (* a module, a function or a class *)

Arguments Ndarray {F} a.
Arguments Int {F} n.
Arguments Opaque {F}.

Definition namespace (F : Type) : Type := list (string * object F).

Fixpoint lookup {V} (ns : list (string * V)) (name : string) : option V :=
  match ns with
  | [] => None
  | (k, v) :: t => if String.eqb k name then Some v else lookup t name
  end.

(** The names bound at the top level of the module. *)
Definition module_globals {F} : namespace F :=
  [ ("math", Opaque); ("np", Opaque); ("param", Opaque); ("njit", Opaque);
    ("ResamplingOperation1D", Opaque); ("_argmax_area", Opaque);
    ("_lttb", Opaque); ("_nth_point", Opaque); ("_ALGORITHMS", Opaque);
    ("downsample1d", Opaque) ]%string.

(** The builtins that the module refers to. *)
Definition builtins {F} : namespace F :=
  [ ("len", Opaque); ("max", Opaque); ("range", Opaque); ("slice", Opaque) ]%string.

(** A name is looked up in the locals of the function, then in the globals
    of the module, then in the builtins. *)
Definition load_name {F} (locals : namespace F) (name : string)
  : Result (object F) :=
  match lookup locals name with
  | Some v => Ok v
  | None =>
      match lookup module_globals name with
      | Some v => Ok v
      | None =>
          match lookup builtins name with
          | Some v => Ok v
          | None => Raise NameError
          end
      end
  end.

(** [len(o)]. *)
Definition py_len {F} (o : object F) : Result Z :=
  match o with
  | Ndarray a => Ok (ndarray_len a)
  | _ => Raise TypeError
  end.

(** [np.arange(start, stop, step)] on integers. *)
Definition np_arange_int (start stop step : Z) : Result (list Z) :=
  if step =? 0 then Raise ZeroDivisionError
  else Ok (map (fun i => start + i * step)
               (range (- ((- (stop - start)) / step)))).

(** [math.ceil(a / b)] on two integers. *)
Definition ceil_div {F} `{Float64 F} (a b : Z) : Result Z :=
  if b =? 0 then Raise ZeroDivisionError
  else match fceil (fdiv (of_int a) (of_int b)) with
       | Some c => Ok c
       | None => Raise ValueError
       end.

(** The expression that [_nth_point] returns, once [n_samples] is bound. *)
Definition nth_indices {F} `{Float64 F} (n_samples n_out : Z)
  : Result (list Z) :=
  c <- ceil_div (F := F) n_samples n_out ;;
  np_arange_int 0 n_samples (Z.max 1 c).

Definition _nth_point {F} `{Float64 F} (x y : ndarray F) (n_out : Z)
  : Result (list Z) :=
  let locals := [ ("x", Ndarray x); ("y", Ndarray y); ("n_out", Int n_out) ]%string in
  s <- load_name locals "s" ;;
  n_samples <- py_len s ;;
  nth_indices (F := F) n_samples n_out.

(** ** The registry and the operation *)

Definition selector (F : Type) : Type :=
  ndarray F -> ndarray F -> Z -> Result (list Z).

Definition lttb_selector {F} {FA : Float64 F} {U : Uninit} : selector F :=
  fun xs ys n_out =>
    x <- operand xs ;;
    y <- operand ys ;;
    _lttb x y n_out.

Definition _ALGORITHMS {F} {FA : Float64 F} {U : Uninit} : list (string * selector F) :=
  [ ("lttb", lttb_selector); ("nth", _nth_point) ]%string.

(** [d[k]]. *)
Definition dict_getitem {V} (d : list (string * V)) (k : string) : Result V :=
  match lookup d k with
  | Some v => Ok v
  | None => Raise KeyError
  end.

(** What the operation uses of the element it is given. *)
Class Element (F E : Type) : Type := {
  element_slice : E -> F * F -> E;          (* [element[slice(lo, hi)]] *)
  element_len : E -> Z;                     (* [len(element)] *)
  dimension_values : E -> Z -> ndarray F;   (* [element.dimension_values(i)] *)
  iloc : E -> list Z -> Result E            (* [element.iloc[samples]] *)
}.

(** The parameters of the operation, [self.p]. *)
Record params (F : Type) : Type := {
  x_range : option (F * F);
  width : Z;
  algorithm : string
}.

Arguments x_range {F} p.
Arguments width {F} p.
Arguments algorithm {F} p.

(** The element after the first statement of [_process]. *)
Definition ranged {F E} {EL : Element F E} (p : params F) (element : E) : E :=
  match x_range p with
  | Some r => element_slice element r
  | None => element
  end.

Definition _process {F E} {FA : Float64 F} {U : Uninit} {EL : Element F E}
  (p : params F) (element : E) : Result E :=
  let element := ranged p element in
  if element_len element <=? width p then Ok element else
  let xs := dimension_values element 0 in
  let ys := dimension_values element 1 in
  let ys := if is_bool_dtype ys then astype_int8 ys else ys in
  downsample <- dict_getitem _ALGORITHMS (algorithm p) ;;
  samples <- downsample xs ys (width p) ;;
  iloc element samples.

(** ** A table with two columns

    The simplest element: rows of an x value and a y value; [column] says
    how the y values are stored. *)

Record table (F Y : Type) : Type := { rows : list (F * Y) }.

Arguments rows {F Y} t.

Definition in_range {F} `{Float64 F} (r : F * F) (v : F) : bool :=
  fleb (fst r) v && negb (fleb (snd r) v).

Fixpoint select_rows {A} (l : list A) (samples : list Z) : Result (list A) :=
  match samples with
  | [] => Ok []
  | i :: t => v <- getitem l i ;; r <- select_rows l t ;; Ok (v :: r)
  end.

Definition table_element {F Y} `{Float64 F} (column : list Y -> ndarray F)
  : Element F (table F Y) := {|
  element_slice := fun t r =>
    {| rows := filter (fun row => in_range r (fst row)) (rows t) |};
  element_len := fun t => len (rows t);
  dimension_values := fun t i =>
    if i =? 0 then float64_array (map fst (rows t))
    else column (map snd (rows t));
  iloc := fun t samples =>
    r <- select_rows (rows t) samples ;; Ok {| rows := r |}
|}.

(** * Specification

    The vocabulary of the properties: positions of a selection, buckets,
    the area and its first argmax, and what a run of [_lttb] leaves in each
    slot. *)

(** [l[k]] for a position [k] that is known to exist. *)
Definition zth (l : list Z) (k : Z) : Z := nth (Z.to_nat k) l 0.

Definition strictly_increasing (l : list Z) : Prop :=
  forall i j, 0 <= i -> i < j -> j < len l -> zth l i < zth l j.

(** [l[k]] in an array of floats, for a position that is known to exist. *)
Definition fth {F} `{Float64 F} (l : list F) (k : Z) : F :=
  nth (Z.to_nat k) l (of_int 0).

(** The array of areas that [_argmax_area] scans when its two buckets have
    the same length. *)
Definition areas {F} `{Float64 F} (prev_x prev_y avg_next_x avg_next_y : F)
  (x_bucket y_bucket : list F) : list F :=
  map (fun p => fabs (fadd (fadd (fmul (fst p) (fsub prev_y avg_next_y))
                                 (fmul (snd p) (fsub avg_next_x prev_x)))
                           (fsub (fmul prev_x avg_next_y)
                                 (fmul avg_next_x prev_y))))
      (combine x_bucket y_bucket).



(** The table has [n_out - 1] boundaries and each of the [n_out - 2] buckets
    [offset[k], offset[k+1])] is a non-empty range of positions that lie
    strictly between the first and the last point of a series of [n]
    points. *)
Definition buckets_nonempty (n n_out : Z) (offset : list Z) : Prop :=
  len offset = n_out - 1 /\
  forall k, 0 <= k < n_out - 2 ->
    1 <= zth offset k /\ zth offset k < zth offset (k + 1) /\
    zth offset (k + 1) <= n - 1.

(** A decision procedure for [buckets_nonempty]. *)
Definition buckets_nonemptyb (n n_out : Z) (offset : list Z) : bool :=
  (len offset =? n_out - 1) &&
  forallb (fun k => (1 <=? zth offset k) && (zth offset k <? zth offset (k + 1))
                    && (zth offset (k + 1) <=? n - 1))
          (range (n_out - 2)).

(** Slot [k + 1] of [r] holds a position of bucket [k]. *)
Definition in_bucket (offset r : list Z) (k : Z) : Prop :=
  zth offset k <= zth r (k + 1) < zth offset (k + 1).

(** Slot [k + 1] of [r] is what the loop computes from slot [k]: the area
    argmax over bucket [k], against the point selected in slot [k] and the
    means of bucket [k + 1]. *)
Definition interior_choice {F} `{Float64 F} (x y : list F) (offset r : list Z)
  (k : Z) : Prop :=
  _argmax_area (fth x (zth r k)) (fth y (zth r k))
    (np_mean (py_slice x (zth offset (k + 1)) (zth offset (k + 2))))
    (np_mean (py_slice y (zth offset (k + 1)) (zth offset (k + 2))))
    (py_slice x (zth offset k) (zth offset (k + 1)))
    (py_slice y (zth offset k) (zth offset (k + 1)))
  = Ok (zth r (k + 1) - zth offset k).

(** Slot [k + 1] of [r] is what the statement after the loop computes from
    slot [k]: the area argmax over bucket [k], against the point selected in
    slot [k] and the last point of the series. *)
Definition last_choice {F} `{Float64 F} (x y : list F) (offset r : list Z)
  (k : Z) : Prop :=
  _argmax_area (fth x (zth r k)) (fth y (zth r k))
    (fth x (len x - 1)) (fth y (len y - 1))
    (py_slice x (zth offset k) (zth offset (k + 1)))
    (py_slice y (zth offset k) (zth offset (k + 1)))
  = Ok (zth r (k + 1) - zth offset k).

(** The tables of every series of [n <= bound] points and every output count
    [3 <= n_out <= n] have non-empty buckets. *)
Definition tables_nonemptyb {F} `{Float64 F} (bound : Z) : bool :=
  forallb (fun n =>
             forallb (fun n_out =>
                        match lttb_offset n n_out with
                        | Ok offset => buckets_nonemptyb n n_out offset
                        | Raise _ => false
                        end)
                     (map (Z.add 3) (range (n - 2))))
          (map (Z.add 3) (range (bound - 2))).

(** The state of the loop before turn [i]. *)
Definition loop_inv {F} `{Float64 F} (x y : list F) (n_out : Z)
  (offset : list Z) (i : Z) (st : Z * list Z) : Prop :=
  let '(a, s) := st in
  len s = n_out /\ a = zth s i /\ zth s 0 = 0 /\
  zth s (n_out - 1) = len x - 1 /\
  forall k, 0 <= k < i ->
    in_bucket offset s k /\ interior_choice x y offset s k.

(** What [_lttb] returns, slot by slot. *)
Definition lttb_outcome {F} `{Float64 F} (x y : list F) (n_out : Z)
  (offset r : list Z) : Prop :=
  len r = n_out /\ zth r 0 = 0 /\ zth r (n_out - 1) = len x - 1 /\
  (forall k, 0 <= k < n_out - 2 -> in_bucket offset r k) /\
  (forall k, 0 <= k < n_out - 3 -> interior_choice x y offset r k) /\
  last_choice x y offset r (n_out - 3).

(** The table that [_lttb] computes in exact arithmetic. *)
Definition exact_table (n n_out : Z) : list Z :=
  map (fun i => 1 + i * (n - 2) / (n_out - 2)) (range (n_out - 1)).

(** The cells that [np.empty] returns hold zeros, for the examples. *)
Definition zeroed : Uninit := fun _ => 0.

Definition float_table : Element Q (table Q Q) :=
  table_element float64_array.

Definition bool_table : Element Q (table Q bool) :=
  table_element bool_array.

(** The index that turn [i] of the loop of [_lttb] selects, given the index
    [a] selected before: what the turn computes before it writes to
    [sampled_x]. *)
Definition lttb_pick {F} `{Float64 F} (x y : list F) (offset : list Z)
  (i a : Z) : Result Z :=
  prev_x <- getitem x a ;;
  prev_y <- getitem y a ;;
  o1 <- getitem offset (i + 1) ;;
  o2 <- getitem offset (i + 2) ;;
  o0 <- getitem offset i ;;
  j <- _argmax_area prev_x prev_y
         (np_mean (py_slice x o1 o2)) (np_mean (py_slice y o1 o2))
         (py_slice x o0 o1) (py_slice y o0 o1) ;;
  Ok (j + o0).

(** Two arrays of the same length that hold the same value in the cells of
    [W]. *)
Definition same_cells (W : Z -> Prop) (s1 s2 : list Z) : Prop :=
  len s1 = len s2 /\ forall k, 0 <= k -> W k -> zth s1 k = zth s2 k.

(** Two states of the loop, or two failures, that differ at most in the
    cells outside [W]. *)
Definition same_states (W : Z -> Prop) (r1 r2 : Result (Z * list Z)) : Prop :=
  match r1, r2 with
  | Ok (a1, s1), Ok (a2, s2) => a1 = a2 /\ same_cells W s1 s2
  | Raise e1, Raise e2 => e1 = e2
  | _, _ => False
  end.

(** The body of [_lttb] after the offset table and the output array were
    made: the statements that fill [sampled_x]. *)
Definition lttb_fill {F} `{Float64 F} (x y : list F) (n_out : Z)
  (offset sampled_x : list Z) : Result (list Z) :=
  sampled_x <- setitem sampled_x 0 0 ;;
  sampled_x <- setitem sampled_x (-1) (len x - 1) ;;
  '(a, sampled_x) <- for_each (lttb_step x y offset) (range (n_out - 3))
                              (0, sampled_x) ;;
  prev_x <- getitem x a ;;
  prev_y <- getitem y a ;;
  last_x <- getitem x (-1) ;;
  last_y <- getitem y (-1) ;;
  o2 <- getitem offset (-2) ;;
  o1 <- getitem offset (-1) ;;
  j <- _argmax_area prev_x prev_y last_x last_y
         (py_slice x o2 o1) (py_slice y o2 o1) ;;
  setitem sampled_x (-2) (j + o2).

(** * Properties *)

(** ** Sequences *)

Lemma len_nonneg {A} (l : list A) : 0 <= len l.
Proof. unfold len. lia. Qed.

Lemma len_map {A B} (f : A -> B) (l : list A) : len (map f l) = len l.
Proof. unfold len. now rewrite length_map. Qed.

Lemma len_range (n : Z) : len (range n) = Z.max 0 n.
Proof. unfold len, range. rewrite length_map, length_seq. lia. Qed.

Lemma nth_range (n k d : Z) :
  0 <= k < n -> nth (Z.to_nat k) (range n) d = k.
Proof.
  intros Hk. unfold range.
  rewrite nth_indep with (d' := Z.of_nat 0)
    by (rewrite length_map, length_seq; lia).
  rewrite map_nth, seq_nth by lia. lia.
Qed.

Lemma range_succ (n : Z) : 0 <= n -> range (n + 1) = range n ++ [n].
Proof.
  intros Hn. unfold range.
  replace (Z.to_nat (n + 1)) with (Z.to_nat n + 1)%nat by lia.
  rewrite seq_app, map_app. simpl. now rewrite Z2Nat.id.
Qed.

Lemma py_index_nonneg (n i : Z) :
  0 <= i < n -> py_index n i = Ok (Z.to_nat i).
Proof.
  intros Hi. unfold py_index.
  destruct (Z.leb_spec 0 i), (Z.ltb_spec i n); simpl; try lia. reflexivity.
Qed.

Lemma py_index_neg (n i : Z) :
  - n <= i < 0 -> py_index n i = Ok (Z.to_nat (i + n)).
Proof.
  intros Hi. unfold py_index.
  destruct (Z.leb_spec 0 i); simpl; try lia.
  destruct (Z.leb_spec (- n) i), (Z.ltb_spec i 0); simpl; try lia. reflexivity.
Qed.

Lemma py_index_inv (n i : Z) (k : nat) :
  py_index n i = Ok k -> (k < Z.to_nat n)%nat.
Proof.
  unfold py_index.
  destruct (Z.leb_spec 0 i), (Z.ltb_spec i n); simpl;
    try (intros [= <-]; lia);
    destruct (Z.leb_spec (- n) i), (Z.ltb_spec i 0); simpl;
    try discriminate; intros [= <-]; lia.
Qed.

Lemma getitem_nth {A} (l : list A) (i : Z) (d : A) :
  0 <= i < len l -> getitem l i = Ok (nth (Z.to_nat i) l d).
Proof.
  intros Hi. unfold getitem. rewrite py_index_nonneg by assumption. simpl.
  destruct (nth_error l (Z.to_nat i)) eqn:E.
  - now rewrite (nth_error_nth _ _ d E).
  - apply nth_error_None in E. unfold len in Hi. lia.
Qed.

Lemma getitem_from_end {A} (l : list A) (i : Z) (d : A) :
  - len l <= i < 0 -> getitem l i = Ok (nth (Z.to_nat (i + len l)) l d).
Proof.
  intros Hi. unfold getitem. rewrite py_index_neg by assumption. simpl.
  destruct (nth_error l (Z.to_nat (i + len l))) eqn:E.
  - now rewrite (nth_error_nth _ _ d E).
  - apply nth_error_None in E. unfold len in Hi, E. lia.
Qed.

Lemma length_update {A} (l : list A) (k : nat) (v : A) :
  length (update l k v) = length l.
Proof.
  revert k. induction l as [|h t IH]; intros [|k]; simpl; auto.
Qed.

Lemma nth_update_same {A} (l : list A) (k : nat) (v d : A) :
  (k < length l)%nat -> nth k (update l k v) d = v.
Proof.
  revert k. induction l as [|h t IH]; intros [|k]; simpl; intros Hk;
    try lia; auto. apply IH. lia.
Qed.

Lemma nth_update_other {A} (l : list A) (k k' : nat) (v d : A) :
  k <> k' -> nth k' (update l k v) d = nth k' l d.
Proof.
  revert k k'. induction l as [|h t IH]; intros [|k] [|k']; simpl; intros Hk;
    try lia; auto.
Qed.

Lemma setitem_nonneg {A} (l : list A) (i : Z) (v : A) :
  0 <= i < len l -> setitem l i v = Ok (update l (Z.to_nat i) v).
Proof.
  intros Hi. unfold setitem. now rewrite py_index_nonneg.
Qed.

Lemma setitem_from_end {A} (l : list A) (i : Z) (v : A) :
  - len l <= i < 0 -> setitem l i v = Ok (update l (Z.to_nat (i + len l)) v).
Proof.
  intros Hi. unfold setitem. now rewrite py_index_neg.
Qed.

Lemma setitem_len {A} (l l' : list A) (i : Z) (v : A) :
  setitem l i v = Ok l' -> len l' = len l.
Proof.
  unfold setitem. destruct (py_index (len l) i); simpl; try discriminate.
  intros [= <-]. unfold len. now rewrite length_update.
Qed.

Lemma len_update {A} (l : list A) (k : nat) (v : A) :
  len (update l k v) = len l.
Proof. unfold len. now rewrite length_update. Qed.

Lemma zth_update_same (l : list Z) (k v : Z) :
  0 <= k < len l -> zth (update l (Z.to_nat k) v) k = v.
Proof.
  intros Hk. unfold zth. apply nth_update_same. unfold len in Hk. lia.
Qed.

Lemma zth_update_other (l : list Z) (k k' v : Z) :
  0 <= k -> 0 <= k' -> k <> k' -> zth (update l (Z.to_nat k) v) k' = zth l k'.
Proof.
  intros Hk Hk' Hne. unfold zth. apply nth_update_other. lia.
Qed.

Lemma clamp_inside (n b : Z) : 0 <= b <= n -> clamp n b = b.
Proof.
  intros Hb. unfold clamp. destruct (Z.ltb_spec b 0); lia.
Qed.

Lemma len_py_slice {A} (l : list A) (lo hi : Z) :
  0 <= lo -> lo <= hi -> hi <= len l -> len (py_slice l lo hi) = hi - lo.
Proof.
  intros H0 H1 H2. unfold py_slice.
  rewrite !clamp_inside by lia. unfold len in *.
  rewrite length_firstn, length_skipn. lia.
Qed.


(** ** The area argmax, in any arithmetic *)

Section Argmax.

Context {F : Type} `{Float64 F}.

Lemma argmax_from_bounds (a : list F) (i mi : Z) (mp : F) :
  0 <= mi < i -> 0 <= argmax_from a i mp mi < i + len a.
Proof.
  revert i mi mp. induction a as [|v t IH]; intros i mi mp Hmi; simpl.
  - unfold len; simpl. lia.
  - assert (Hl : len (v :: t) = len t + 1) by (unfold len; simpl; lia).
    rewrite Hl. destruct (fleb v mp).
    + specialize (IH (i + 1) mi mp). lia.
    + destruct (fisnan v).
      * pose proof (len_nonneg t). lia.
      * specialize (IH (i + 1) i v). lia.
Qed.

Lemma argmax_bounds (a : list F) (j : Z) :
  argmax a = Ok j -> 0 <= j < len a.
Proof.
  destruct a as [|v t]; simpl; try discriminate.
  assert (Hl : len (v :: t) = len t + 1) by (unfold len; simpl; lia).
  intros [= <-]. rewrite Hl. destruct (fisnan v).
  - pose proof (len_nonneg t). lia.
  - pose proof (argmax_from_bounds t 1 0 v). lia.
Qed.

Lemma argmax_nonempty (a : list F) :
  0 < len a -> exists j, argmax a = Ok j.
Proof.
  destruct a as [|v t]; [unfold len; simpl; lia|]. intros _. simpl. eauto.
Qed.

Lemma argmax_empty : argmax (@nil F) = Raise ValueError.
Proof. reflexivity. Qed.

Lemma broadcast_add_same (a b : list F) :
  len a = len b ->
  broadcast_add a b = Ok (map (fun p => fadd (fst p) (snd p)) (combine a b)).
Proof.
  intros E. unfold broadcast_add. now rewrite E, Z.eqb_refl.
Qed.

Lemma len_combine {A B} (a : list A) (b : list B) :
  len a = len b -> len (combine a b) = len a.
Proof. unfold len. rewrite length_combine. lia. Qed.

Lemma argmax_area_areas (px py ax ay : F) (xb yb : list F) :
  len xb = len yb ->
  _argmax_area px py ax ay xb yb = argmax (areas px py ax ay xb yb).
Proof.
  intros E. unfold _argmax_area, areas.
  rewrite broadcast_add_same by now rewrite !len_map.
  simpl. f_equal. rewrite !map_map.
  clear E. revert yb. induction xb as [|u xb IH]; intros [|v yb]; simpl; auto.
  now rewrite IH.
Qed.

Lemma len_areas (px py ax ay : F) (xb yb : list F) :
  len xb = len yb -> len (areas px py ax ay xb yb) = len xb.
Proof.
  intros E. unfold areas. rewrite len_map. now apply len_combine.
Qed.

Lemma argmax_area_ok (px py ax ay : F) (xb yb : list F) :
  len xb = len yb -> 0 < len xb ->
  exists j, _argmax_area px py ax ay xb yb = Ok j /\ 0 <= j < len xb.
Proof.
  intros E Hpos. rewrite argmax_area_areas by assumption.
  destruct (argmax_nonempty (areas px py ax ay xb yb)) as [j Hj].
  - now rewrite len_areas.
  - exists j. split; [assumption|].
    apply argmax_bounds in Hj. now rewrite len_areas in Hj.
Qed.

(** An empty bucket makes the argmax raise. *)
Lemma argmax_area_empty (px py ax ay : F) :
  _argmax_area px py ax ay [] [] = Raise ValueError.
Proof. reflexivity. Qed.

End Argmax.

(** ** The run of [_lttb] on a table of non-empty buckets *)

Lemma for_each_app {S} (body : Z -> S -> Result S) (l1 l2 : list Z) (s : S) :
  for_each body (l1 ++ l2) s = (s' <- for_each body l1 s ;; for_each body l2 s').
Proof.
  revert s. induction l1 as [|i t IH]; intros s; simpl; [reflexivity|].
  destruct (body i s); simpl; auto.
Qed.

Section Run.

Context {F : Type} `{Float64 F}.
Variables (x y : list F) (n_out : Z) (offset : list Z).
Hypothesis Hout : 3 <= n_out.
Hypothesis Hlen : len x = len y.
Hypothesis Hoff : buckets_nonempty (len y) n_out offset.

Lemma offset_len : len offset = n_out - 1.
Proof. apply Hoff. Qed.

Lemma offset_bucket (k : Z) :
  0 <= k < n_out - 2 ->
  1 <= zth offset k /\ zth offset k < zth offset (k + 1) /\
  zth offset (k + 1) <= len y - 1.
Proof. apply Hoff. Qed.

Lemma getitem_offset (k : Z) :
  0 <= k < n_out - 1 -> getitem offset k = Ok (zth offset k).
Proof. intros Hk. apply getitem_nth. rewrite offset_len. lia. Qed.

Lemma bucket_ok (px py ax ay : F) (k : Z) :
  0 <= k < n_out - 2 ->
  exists j,
    _argmax_area px py ax ay
      (py_slice x (zth offset k) (zth offset (k + 1)))
      (py_slice y (zth offset k) (zth offset (k + 1))) = Ok j /\
    0 <= j < zth offset (k + 1) - zth offset k.
Proof.
  intros Hk. destruct (offset_bucket k Hk) as (H1 & H2 & H3).
  assert (Lx : len (py_slice x (zth offset k) (zth offset (k + 1)))
               = zth offset (k + 1) - zth offset k)
    by (apply len_py_slice; lia).
  assert (Ly : len (py_slice y (zth offset k) (zth offset (k + 1)))
               = zth offset (k + 1) - zth offset k)
    by (apply len_py_slice; lia).
  destruct (argmax_area_ok px py ax ay _ _ (eq_trans Lx (eq_sym Ly)))
    as (j & Hj & Hb); [lia|].
  exists j. split; [assumption|lia].
Qed.

Lemma selected_position (i : Z) (st : Z * list Z) :
  0 <= i <= n_out - 3 -> loop_inv x y n_out offset i st -> 0 <= fst st < len y - 1.
Proof.
  destruct st as [a s]. intros Hi (_ & Ha & H0 & _ & Hk). simpl.
  destruct (Z.eq_dec i 0) as [->|Hne].
  - rewrite Ha, H0. destruct (offset_bucket 0) as (? & ? & ?); lia.
  - destruct (Hk (i - 1)) as [Hb _]; [lia|]. unfold in_bucket in Hb.
    replace (i - 1 + 1) with i in Hb by lia.
    destruct (offset_bucket (i - 1)) as (? & ? & ?); [lia|].
    replace (i - 1 + 1) with i in * by lia.
    destruct (offset_bucket i) as (? & ? & ?); [lia|]. lia.
Qed.

Lemma lttb_step_inv (i : Z) (st : Z * list Z) :
  0 <= i < n_out - 3 -> loop_inv x y n_out offset i st ->
  exists st', lttb_step x y offset i st = Ok st' /\ loop_inv x y n_out offset (i + 1) st'.
Proof.
  intros Hi Hinv.
  pose proof (selected_position i st ltac:(lia) Hinv) as Ha.
  destruct st as [a s]. simpl in Ha.
  destruct Hinv as (Hs & Hai & H0 & Hlast & Hk).
  unfold lttb_step.
  rewrite (getitem_nth x a (of_int 0)) by lia.
  rewrite (getitem_nth y a (of_int 0)) by lia.
  cbn [bind].
  rewrite !getitem_offset by lia. cbn [bind].
  fold (fth x a). fold (fth y a).
  destruct (bucket_ok (fth x a) (fth y a)
              (np_mean (py_slice x (zth offset (i + 1)) (zth offset (i + 2))))
              (np_mean (py_slice y (zth offset (i + 1)) (zth offset (i + 2))))
              i ltac:(lia)) as (j & Hj & Hjb).
  rewrite Hj. cbn [bind].
  rewrite setitem_nonneg by lia. cbn [bind].
  eexists. split; [reflexivity|].
  unfold loop_inv.
  split; [now rewrite len_update|].
  split; [now rewrite zth_update_same by lia|].
  split; [rewrite zth_update_other by lia; assumption|].
  split; [rewrite zth_update_other by lia; assumption|].
  intros k Hkr. destruct (Z.eq_dec k i) as [->|Hne].
  - split.
    + unfold in_bucket. rewrite zth_update_same by lia. lia.
    + unfold interior_choice.
      rewrite zth_update_same by lia.
      rewrite zth_update_other by lia.
      rewrite <- Hai, Hj. f_equal. lia.
  - destruct (Hk k) as [Hb Hc]; [lia|]. split.
    + unfold in_bucket in *. rewrite zth_update_other by lia. assumption.
    + unfold interior_choice in *.
      rewrite !zth_update_other by lia. assumption.
Qed.

Lemma lttb_loop_inv (m : nat) (st : Z * list Z) :
  Z.of_nat m <= n_out - 3 -> loop_inv x y n_out offset 0 st ->
  exists st', for_each (lttb_step x y offset) (range (Z.of_nat m)) st = Ok st'
              /\ loop_inv x y n_out offset (Z.of_nat m) st'.
Proof.
  induction m as [|m IH]; intros Hm Hinv.
  - exists st. split; [reflexivity|assumption].
  - destruct IH as (st1 & E1 & I1); [lia|assumption|].
    destruct (lttb_step_inv (Z.of_nat m) st1) as (st2 & E2 & I2);
      [lia|assumption|].
    exists st2. split.
    + replace (Z.of_nat (S m)) with (Z.of_nat m + 1) by lia.
      rewrite range_succ by lia. rewrite for_each_app, E1. simpl.
      now rewrite E2.
    + replace (Z.of_nat (S m)) with (Z.of_nat m + 1) by lia. assumption.
Qed.

End Run.

Lemma len_np_empty `{Uninit} (n : Z) (s : list Z) :
  np_empty n = Ok s -> len s = n.
Proof.
  unfold np_empty. destruct (Z.ltb_spec n 0); try discriminate.
  intros [= <-]. unfold len. rewrite length_map, length_seq. lia.
Qed.

Lemma np_empty_ok `{Uninit} (n : Z) :
  0 <= n -> exists s, np_empty n = Ok s /\ len s = n.
Proof.
  intros Hn. unfold np_empty. destruct (Z.ltb_spec n 0); try lia.
  eexists. split; [reflexivity|].
  unfold len. rewrite length_map, length_seq. lia.
Qed.

Lemma lttb_run {F} {FA : Float64 F} {U : Uninit} (x y : list F) (n_out : Z)
  (offset : list Z) :
  3 <= n_out -> len x = len y ->
  lttb_offset (len y) n_out = Ok offset ->
  buckets_nonempty (len y) n_out offset ->
  exists r, _lttb x y n_out = Ok r /\ lttb_outcome x y n_out offset r.
Proof.
  intros Hout Hlen Hoffset Hoff.
  pose proof (proj1 Hoff) as Hol.
  unfold _lttb. rewrite Hoffset. cbn [bind].
  destruct (np_empty_ok n_out ltac:(lia)) as (s0 & E0 & L0).
  rewrite E0. cbn [bind].
  rewrite setitem_nonneg by lia. cbn [bind].
  rewrite setitem_from_end by (rewrite len_update; lia). cbn [bind].
  rewrite len_update, L0.
  replace (-1 + n_out) with (n_out - 1) by lia.
  set (s2 := update (update s0 (Z.to_nat 0) 0) (Z.to_nat (n_out - 1)) (len x - 1)).
  assert (I0 : loop_inv x y n_out offset 0 (0, s2)).
  { unfold loop_inv, s2. split; [now rewrite !len_update|].
    assert (Z0 : zth (update (update s0 (Z.to_nat 0) 0) (Z.to_nat (n_out - 1))
                        (len x - 1)) 0 = 0).
    { rewrite zth_update_other by lia. apply zth_update_same. lia. }
    split; [now rewrite Z0|]. split; [assumption|].
    split; [apply zth_update_same; rewrite len_update; lia|].
    intros k Hk. lia. }
  destruct (lttb_loop_inv x y n_out offset Hout Hlen Hoff
              (Z.to_nat (n_out - 3)) (0, s2)) as (st & Eloop & Iloop);
    [lia|assumption|].
  rewrite Z2Nat.id in Eloop, Iloop by lia.
  rewrite Eloop. cbn [bind].
  pose proof (selected_position x y n_out offset Hout Hoff (n_out - 3) st
                ltac:(lia) Iloop) as Ha.
  destruct st as [a s3]. simpl in Ha.
  destruct Iloop as (L3 & Hai & Hfirst & Hlast & Hk).
  rewrite (getitem_nth x a (of_int 0)) by lia.
  rewrite (getitem_nth y a (of_int 0)) by lia.
  rewrite (getitem_from_end x (-1) (of_int 0)) by lia.
  rewrite (getitem_from_end y (-1) (of_int 0)) by lia.
  rewrite (getitem_from_end offset (-2) 0) by lia.
  rewrite (getitem_from_end offset (-1) 0) by lia.
  cbn [bind]. rewrite Hol.
  replace (-1 + len x) with (len x - 1) by lia.
  replace (-1 + len y) with (len y - 1) by lia.
  replace (-2 + (n_out - 1)) with (n_out - 3) by lia.
  replace (-1 + (n_out - 1)) with (n_out - 3 + 1) by lia.
  fold (fth x a) (fth y a) (fth x (len x - 1)) (fth y (len y - 1)).
  fold (zth offset (n_out - 3)) (zth offset (n_out - 3 + 1)).
  destruct (bucket_ok x y n_out offset Hlen Hoff (fth x a) (fth y a)
              (fth x (len x - 1)) (fth y (len y - 1)) (n_out - 3) ltac:(lia))
    as (j & Hj & Hjb).
  rewrite Hj. cbn [bind].
  rewrite setitem_from_end by lia. rewrite L3.
  replace (-2 + n_out) with (n_out - 2) by lia.
  eexists. split; [reflexivity|].
  unfold lttb_outcome.
  split; [now rewrite len_update|].
  split; [rewrite zth_update_other by lia; assumption|].
  split; [rewrite zth_update_other by lia; assumption|].
  split; [|split].
  - intros k Hkr. unfold in_bucket.
    destruct (Z.eq_dec k (n_out - 3)) as [->|Hne].
    + replace (n_out - 3 + 1) with (n_out - 2) in * by lia.
      rewrite zth_update_same by lia. lia.
    + destruct (Hk k) as [Hb _]; [lia|]. unfold in_bucket in Hb.
      rewrite zth_update_other by lia. assumption.
  - intros k Hkr. destruct (Hk k) as [_ Hc]; [lia|].
    unfold interior_choice in *. rewrite !zth_update_other by lia.
    assumption.
  - unfold last_choice.
    rewrite zth_update_other by lia.
    replace (n_out - 3 + 1) with (n_out - 2) in * by lia.
    rewrite zth_update_same by lia.
    rewrite <- Hai, Hj. f_equal. lia.
Qed.

(** ** From buckets to an increasing selection *)

Lemma offset_monotone (n n_out : Z) (offset : list Z) :
  buckets_nonempty n n_out offset ->
  forall (d : nat) (a : Z),
    0 <= a -> a + Z.of_nat d <= n_out - 2 ->
    zth offset a <= zth offset (a + Z.of_nat d).
Proof.
  intros [_ Hb]. induction d as [|d IH]; intros a H0 Hd.
  - replace (a + Z.of_nat 0) with a by lia. lia.
  - specialize (IH a H0 ltac:(lia)).
    destruct (Hb (a + Z.of_nat d)) as (_ & Hlt & _); [lia|].
    replace (a + Z.of_nat (S d)) with (a + Z.of_nat d + 1) by lia. lia.
Qed.

Lemma offset_le (n n_out : Z) (offset : list Z) (a b : Z) :
  buckets_nonempty n n_out offset ->
  0 <= a -> a <= b -> b <= n_out - 2 -> zth offset a <= zth offset b.
Proof.
  intros Hoff H0 Hab Hb.
  pose proof (offset_monotone n n_out offset Hoff (Z.to_nat (b - a)) a H0) as M.
  rewrite Z2Nat.id in M by lia. replace (a + (b - a)) with b in M by lia.
  apply M. lia.
Qed.

(** Slot by slot containment makes the whole selection increase. *)
Lemma containment_increasing (n n_out : Z) (offset r : list Z) :
  3 <= n_out ->
  buckets_nonempty n n_out offset ->
  len r = n_out -> zth r 0 = 0 -> zth r (n_out - 1) = n - 1 ->
  (forall k, 0 <= k < n_out - 2 -> in_bucket offset r k) ->
  strictly_increasing r.
Proof.
  intros Hout Hoff Hr H0 Hlast Hin i j Hi Hij Hj. rewrite Hr in Hj.
  assert (Lo : forall k, 1 <= k <= n_out - 2 ->
                 zth offset (k - 1) <= zth r k < zth offset k).
  { intros k Hk. specialize (Hin (k - 1) ltac:(lia)). unfold in_bucket in Hin.
    now replace (k - 1 + 1) with k in Hin by lia. }
  assert (First : 1 <= zth offset 0) by (apply (proj2 Hoff 0); lia).
  assert (Last : zth offset (n_out - 2) <= n - 1).
  { destruct (proj2 Hoff (n_out - 3)) as (_ & _ & Hl); [lia|].
    now replace (n_out - 3 + 1) with (n_out - 2) in Hl by lia. }
  destruct (Z.eq_dec i 0) as [->|Hi0];
    destruct (Z.eq_dec j (n_out - 1)) as [->|Hjl].
  - rewrite H0, Hlast.
    pose proof (offset_le n n_out offset 0 (n_out - 2) Hoff). lia.
  - rewrite H0. specialize (Lo j ltac:(lia)).
    pose proof (offset_le n n_out offset 0 (j - 1) Hoff). lia.
  - rewrite Hlast. specialize (Lo i ltac:(lia)).
    pose proof (offset_le n n_out offset i (n_out - 2) Hoff). lia.
  - pose proof (Lo i ltac:(lia)). pose proof (Lo j ltac:(lia)).
    pose proof (offset_le n n_out offset i (j - 1) Hoff). lia.
Qed.

Lemma in_range_iff (n k : Z) : In k (range n) <-> 0 <= k < n.
Proof.
  unfold range. rewrite in_map_iff. split.
  - intros (m & <- & Hm). apply in_seq in Hm. lia.
  - intros Hk. exists (Z.to_nat k). split; [lia|]. apply in_seq. lia.
Qed.

Lemma buckets_nonemptyb_true (n n_out : Z) (offset : list Z) :
  buckets_nonemptyb n n_out offset = true -> buckets_nonempty n n_out offset.
Proof.
  unfold buckets_nonemptyb, buckets_nonempty.
  rewrite andb_true_iff, forallb_forall. intros [Hl Hb]. split; [lia|].
  intros k Hk. specialize (Hb k (proj2 (in_range_iff _ _) Hk)).
  rewrite !andb_true_iff in Hb. lia.
Defined.

(** C1.  In any arithmetic: when [n_out >= 3], [x] and [y] have the same
    length [n >= n_out] and every bucket of the offset table is non-empty,
    [_lttb] returns a selection of exactly [n_out] indices that is strictly
    increasing, starts with 0 and ends with [n - 1]. *)
Theorem lttb_selection_shape {F} {FA : Float64 F} {U : Uninit}
  (x y : list F) (n_out : Z) (offset : list Z) :
  3 <= n_out -> len x = len y -> n_out <= len y ->
  lttb_offset (len y) n_out = Ok offset ->
  buckets_nonempty (len y) n_out offset ->
  exists r, _lttb x y n_out = Ok r /\
            len r = n_out /\ strictly_increasing r /\
            zth r 0 = 0 /\ zth r (len r - 1) = len y - 1.
Proof.
  intros Hout Hlen _ Hoffset Hoff.
  destruct (lttb_run x y n_out offset Hout Hlen Hoffset Hoff)
    as (r & Er & Hr & H0 & Hlast & Hin & _).
  exists r. rewrite Hlen in Hlast. repeat split; try assumption.
  - apply (containment_increasing (len y) n_out offset); assumption.
  - now rewrite Hr.
Qed.

(** The hypotheses of C1 hold, in binary64, for six points and five output
    slots, where rounding makes the last boundary 4 and not 5. *)
Lemma lttb_selection_shape_witness :
  exists r,
    _lttb (F := spec_float) (U := zeroed)
      (map of_int [0; 1; 2; 3; 4; 5]) (map of_int [3; 1; 4; 1; 5; 9]) 5 = Ok r /\
    len r = 5 /\ strictly_increasing r /\
    zth r 0 = 0 /\ zth r (len r - 1) = 5.
Proof.
  apply (lttb_selection_shape (F := spec_float) (U := zeroed)
           (map of_int [0; 1; 2; 3; 4; 5]) (map of_int [3; 1; 4; 1; 5; 9]) 5
           [1; 2; 3; 4]).
  - vm_compute. discriminate.
  - reflexivity.
  - vm_compute. discriminate.
  - vm_compute. reflexivity.
  - apply buckets_nonemptyb_true. vm_compute. reflexivity.
Defined.

(** C9.  Under the hypotheses of C1, the index written to slot [k + 1] lies
    in bucket [k], for each of the [n_out - 2] buckets; the last of them is
    the range between the last two boundaries.  Any selection with this
    containment between 0 and [n - 1] is strictly increasing. *)
Theorem lttb_bucket_containment {F} {FA : Float64 F} {U : Uninit}
  (x y : list F) (n_out : Z) (offset : list Z) :
  3 <= n_out -> len x = len y -> n_out <= len y ->
  lttb_offset (len y) n_out = Ok offset ->
  buckets_nonempty (len y) n_out offset ->
  exists r, _lttb x y n_out = Ok r /\
    (forall k, 0 <= k < n_out - 2 ->
       zth offset k <= zth r (k + 1) < zth offset (k + 1)) /\
    (zth offset (len offset - 2) <= zth r (n_out - 2)
       < zth offset (len offset - 1)) /\
    forall r', len r' = n_out -> zth r' 0 = 0 ->
       zth r' (n_out - 1) = len y - 1 ->
       (forall k, 0 <= k < n_out - 2 ->
          zth offset k <= zth r' (k + 1) < zth offset (k + 1)) ->
       strictly_increasing r'.
Proof.
  intros Hout Hlen _ Hoffset Hoff.
  destruct (lttb_run x y n_out offset Hout Hlen Hoffset Hoff)
    as (r & Er & Hr & H0 & Hlast & Hin & _).
  exists r. split; [assumption|]. split; [exact Hin|]. split.
  - rewrite (proj1 Hoff). specialize (Hin (n_out - 3) ltac:(lia)).
    unfold in_bucket in Hin.
    replace (n_out - 1 - 2) with (n_out - 3) by lia.
    replace (n_out - 1 - 1) with (n_out - 3 + 1) by lia.
    now replace (n_out - 2) with (n_out - 3 + 1) by lia.
  - intros r' Hr' H0' Hl' Hin'.
    apply (containment_increasing (len y) n_out offset); assumption.
Qed.

Lemma lttb_bucket_containment_witness :
  exists r,
    _lttb (F := spec_float) (U := zeroed)
      (map of_int [0; 1; 2; 3; 4; 5; 6; 7]) (map of_int [2; 7; 1; 8; 2; 8; 1; 8]) 4
      = Ok r /\
    (forall k, 0 <= k < 4 - 2 ->
       zth [1; 4; 7] k <= zth r (k + 1) < zth [1; 4; 7] (k + 1)) /\
    (zth [1; 4; 7] (len [1; 4; 7] - 2) <= zth r (4 - 2)
       < zth [1; 4; 7] (len [1; 4; 7] - 1)) /\
    forall r', len r' = 4 -> zth r' 0 = 0 ->
       zth r' (4 - 1) = len (map (of_int (F := spec_float)) [2; 7; 1; 8; 2; 8; 1; 8]) - 1 ->
       (forall k, 0 <= k < 4 - 2 ->
          zth [1; 4; 7] k <= zth r' (k + 1) < zth [1; 4; 7] (k + 1)) ->
       strictly_increasing r'.
Proof.
  apply (lttb_bucket_containment (F := spec_float) (U := zeroed)
           (map of_int [0; 1; 2; 3; 4; 5; 6; 7])
           (map of_int [2; 7; 1; 8; 2; 8; 1; 8]) 4 [1; 4; 7]).
  - vm_compute. discriminate.
  - reflexivity.
  - vm_compute. discriminate.
  - vm_compute. reflexivity.
  - apply buckets_nonemptyb_true. vm_compute. reflexivity.
Defined.

(** ** The stride selector *)

(** C2.  [_nth_point] reads the name [s], which is bound neither in the
    function nor in the module nor in the builtins: every call raises
    [NameError], whatever the series and the output count.  The expression
    that it would return for a series of 100 points and 10 output points is
    the ten indices 0, 10, ..., 90, in exact arithmetic and in binary64. *)
Theorem nth_point_name_error :
  (forall F (FA : Float64 F) (x y : ndarray F) (n_out : Z),
     _nth_point x y n_out = Raise NameError) /\
  _nth_point (F := spec_float)
    (float64_array (map of_int (range 100)))
    (float64_array (map of_int (range 100))) 10 = Raise NameError /\
  nth_indices (F := Q) 100 10 = Ok [0; 10; 20; 30; 40; 50; 60; 70; 80; 90] /\
  nth_indices (F := spec_float) 100 10
    = Ok [0; 10; 20; 30; 40; 50; 60; 70; 80; 90].
Proof.
  split; [|split; [|split]].
  - intros F FA x y n_out. reflexivity.
  - reflexivity.
  - vm_compute. reflexivity.
  - vm_compute. reflexivity.
Qed.

(** ** The operation *)



(** The length is compared after the filter: seven rows, five of them in
    the range, and a width of five. *)
Example process_filters_first :
  let t := {| rows := [(0#1, 3#1); (1#1, 1#1); (2#1, 4#1); (3#1, 1#1);
                       (4#1, 5#1); (5#1, 9#1); (6#1, 2#1)]%Q |} in
  let p := {| x_range := Some (1#1, 6#1)%Q; width := 5; algorithm := "lttb"%string |} in
  _process (U := zeroed) (EL := float_table) p t
  = Ok {| rows := [(1#1, 1#1); (2#1, 4#1); (3#1, 1#1); (4#1, 5#1); (5#1, 9#1)]%Q |}.
Proof. vm_compute. reflexivity. Qed.

(** C8.  When the second dimension of the (filtered) element is boolean and
    a selector runs, the selector receives the first dimension as it is and
    the int8 array of the booleans, 0 for [False] and 1 for [True]; an array
    that is not boolean is passed as it is; the selection is applied to the
    (filtered) element, not to a cast copy. *)
Theorem process_boolean_cast {F E} {FA : Float64 F} {U : Uninit}
  {EL : Element F E} (p : params F) (element : E) :
  width p < element_len (ranged p element) ->
  let e := ranged p element in
  let xs := dimension_values e 0 in
  let ys := dimension_values e 1 in
  (forall b, ys = bool_array b ->
     Forall (fun v => v = 0 \/ v = 1) (map Z.b2z b) /\
     _process p element =
       (downsample <- dict_getitem _ALGORITHMS (algorithm p) ;;
        samples <- downsample xs (int8_array (map Z.b2z b)) (width p) ;;
        iloc e samples)) /\
  (is_bool_dtype ys = false ->
     _process p element =
       (downsample <- dict_getitem _ALGORITHMS (algorithm p) ;;
        samples <- downsample xs ys (width p) ;;
        iloc e samples)).
Proof.
  intros Hlt e xs ys.
  assert (Hrun : (element_len (ranged p element) <=? width p) = false)
    by (apply Z.leb_gt; assumption).
  split.
  - intros b Hb. split.
    + apply Forall_forall. intros v Hv. apply in_map_iff in Hv.
      destruct Hv as ([|] & <- & _); simpl; auto.
    + unfold _process. rewrite Hrun. fold e. fold ys. rewrite Hb. reflexivity.
  - intros Hnb. unfold _process. rewrite Hrun. fold e. fold ys.
    rewrite Hnb. reflexivity.
Qed.

(** Five rows with a boolean y and a width of three. *)
Lemma process_boolean_cast_witness :
  let t := {| rows := [(0#1, false); (1#1, true); (2#1, false); (3#1, true);
                       (4#1, true)]%Q |} in
  let p := {| x_range := None; width := 3; algorithm := "lttb"%string |} in
  let e := ranged (EL := bool_table) p t in
  let xs := dimension_values (Element := bool_table) e 0 in
  let ys := dimension_values (Element := bool_table) e 1 in
  (forall b, ys = bool_array b ->
     Forall (fun v => v = 0 \/ v = 1) (map Z.b2z b) /\
     _process (U := zeroed) (EL := bool_table) p t =
       (downsample <- dict_getitem (_ALGORITHMS (U := zeroed)) (algorithm p) ;;
        samples <- downsample xs (int8_array (map Z.b2z b)) (width p) ;;
        iloc (Element := bool_table) e samples)) /\
  (is_bool_dtype ys = false ->
     _process (U := zeroed) (EL := bool_table) p t =
       (downsample <- dict_getitem (_ALGORITHMS (U := zeroed)) (algorithm p) ;;
        samples <- downsample xs ys (width p) ;;
        iloc (Element := bool_table) e samples)).
Proof.
  intros t p.
  apply (process_boolean_cast (U := zeroed) (EL := bool_table) p t).
  vm_compute. reflexivity.
Defined.

(** On that table the selection runs and the rows that come back still
    carry booleans. *)
Example process_boolean_rows :
  _process (U := zeroed) (EL := bool_table)
    {| x_range := None; width := 3; algorithm := "lttb"%string |}
    {| rows := [(0#1, false); (1#1, true); (2#1, false); (3#1, true);
                (4#1, true)]%Q |}
  = Ok {| rows := [(0#1, false); (1#1, true); (4#1, true)]%Q |}.
Proof. vm_compute. reflexivity. Qed.

(** ** Failures *)

Lemma lttb_step_len {F} `{Float64 F} (x y : list F) (offset : list Z) (i : Z)
  (st st' : Z * list Z) :
  lttb_step x y offset i st = Ok st' -> len (snd st') = len (snd st).
Proof.
  destruct st as [a s]. unfold lttb_step.
  destruct (getitem x a); cbn [bind]; try discriminate.
  destruct (getitem y a); cbn [bind]; try discriminate.
  destruct (getitem offset (i + 1)); cbn [bind]; try discriminate.
  destruct (getitem offset (i + 2)); cbn [bind]; try discriminate.
  destruct (getitem offset i); cbn [bind]; try discriminate.
  destruct (_argmax_area _ _ _ _ _ _); cbn [bind]; try discriminate.
  destruct (setitem s (i + 1) _) eqn:Es; cbn [bind]; try discriminate.
  intros [= <-]. simpl. apply (setitem_len _ _ _ _ Es).
Qed.

Lemma for_each_len {F} `{Float64 F} (x y : list F) (offset l : list Z)
  (st st' : Z * list Z) :
  for_each (lttb_step x y offset) l st = Ok st' ->
  len (snd st') = len (snd st).
Proof.
  revert st. induction l as [|i t IH]; intros st; simpl.
  - now intros [= <-].
  - destruct (lttb_step x y offset i st) as [st1|] eqn:E1; cbn [bind];
      try discriminate.
    intros E2. rewrite (IH _ E2). apply (lttb_step_len _ _ _ _ _ _ E1).
Qed.

(** A selection that is returned is complete: it has [n_out] cells. *)
Lemma lttb_complete {F} {FA : Float64 F} {U : Uninit} (x y : list F)
  (n_out : Z) (r : list Z) :
  _lttb x y n_out = Ok r -> len r = n_out.
Proof.
  unfold _lttb.
  destruct (lttb_offset (len y) n_out) as [offset|]; cbn [bind];
    try discriminate.
  destruct (np_empty n_out) as [s0|] eqn:E0; cbn [bind]; try discriminate.
  destruct (setitem s0 0 0) as [s1|] eqn:E1; cbn [bind]; try discriminate.
  destruct (setitem s1 (-1) (len x - 1)) as [s2|] eqn:E2; cbn [bind];
    try discriminate.
  destruct (for_each _ _ _) as [[a s3]|] eqn:E3; cbn [bind]; try discriminate.
  destruct (getitem x a); cbn [bind]; try discriminate.
  destruct (getitem y a); cbn [bind]; try discriminate.
  destruct (getitem x (-1)); cbn [bind]; try discriminate.
  destruct (getitem y (-1)); cbn [bind]; try discriminate.
  destruct (getitem offset (-2)); cbn [bind]; try discriminate.
  destruct (getitem offset (-1)); cbn [bind]; try discriminate.
  destruct (_argmax_area _ _ _ _ _ _); cbn [bind]; try discriminate.
  intros E4. rewrite (setitem_len _ _ _ _ E4).
  apply for_each_len in E3. simpl in E3. rewrite E3.
  rewrite (setitem_len _ _ _ _ E2), (setitem_len _ _ _ _ E1).
  apply (len_np_empty _ _ E0).
Qed.

(** A turn of the loop whose bucket is empty raises [ValueError], from the
    argmax, once the cells it reads before were found. *)
Lemma lttb_step_empty_bucket {F} `{Float64 F} (x y : list F)
  (offset : list Z) (i a : Z) (s : list Z) (px py : F) (o0 o1 o2 : Z) :
  getitem x a = Ok px -> getitem y a = Ok py ->
  getitem offset i = Ok o0 -> getitem offset (i + 1) = Ok o1 ->
  getitem offset (i + 2) = Ok o2 ->
  py_slice x o0 o1 = [] -> py_slice y o0 o1 = [] ->
  lttb_step x y offset i (a, s) = Raise ValueError.
Proof.
  intros Ex Ey E0 E1 E2 Sx Sy. unfold lttb_step.
  rewrite Ex, Ey, E1, E2, E0. cbn [bind]. rewrite Sx, Sy. reflexivity.
Qed.

(** C3, as the code has it.  Nothing is checked before the arrays are
    indexed, and a call still fails as a whole: what [_lttb] returns has
    [n_out] cells, [n_out = 2] raises [ZeroDivisionError], an empty bucket
    raises the [ValueError] of the argmax over an empty array, and an
    algorithm name that the registry lacks raises [KeyError] before a
    selector runs. *)
Theorem lttb_failures_atomic :
  (forall F (FA : Float64 F) (U : Uninit) (x y : list F) (n_out : Z) r,
     _lttb x y n_out = Ok r -> len r = n_out) /\
  (forall F (FA : Float64 F) (U : Uninit) (x y : list F),
     _lttb x y 2 = Raise ZeroDivisionError) /\
  (forall F (FA : Float64 F) (x y : list F) offset i a s px py o0 o1 o2,
     getitem x a = Ok px -> getitem y a = Ok py ->
     getitem offset i = Ok o0 -> getitem offset (i + 1) = Ok o1 ->
     getitem offset (i + 2) = Ok o2 ->
     py_slice x o0 o1 = [] -> py_slice y o0 o1 = [] ->
     lttb_step x y offset i (a, s) = Raise ValueError) /\
  (forall F (FA : Float64 F) (px py ax ay : F),
     _argmax_area px py ax ay [] [] = Raise ValueError) /\
  (forall F E (FA : Float64 F) (U : Uninit) (EL : Element F E)
          (p : params F) (element : E),
     width p < element_len (ranged p element) ->
     lookup (_ALGORITHMS (F := F)) (algorithm p) = None ->
     _process p element = Raise KeyError).
Proof.
  split; [|split; [|split; [|split]]].
  - intros. eapply lttb_complete; eassumption.
  - intros. reflexivity.
  - intros. eapply lttb_step_empty_bucket; eassumption.
  - intros. reflexivity.
  - intros F E FA U EL p element Hlt Hno. unfold _process.
    destruct (Z.leb_spec (element_len (ranged p element)) (width p)); [lia|].
    unfold dict_getitem. now rewrite Hno.
Qed.

(** C3 fails as stated.  A series whose x is longer than its y is not
    rejected: a selection comes back, and its last index is not a position
    of y.  An output count of one is not rejected either: the call ends in
    the [IndexError] of an access to the empty offset table; so does a call
    on a series of one point. *)
Lemma lttb_unvalidated_inputs :
  let x := map inject_Z [0; 1; 2; 3; 4] in
  let y := map inject_Z [0; 1; 0] in
  len x <> len y /\
  _lttb (F := Q) (U := zeroed) x y 3 = Ok [0; 1; 4] /\
  getitem y 4 = Raise IndexError /\
  _lttb (F := Q) (U := zeroed) x x 1 = Raise IndexError /\
  _lttb (F := Q) (U := zeroed) [0#1]%Q [4#1]%Q 3 = Raise IndexError.
Proof.
  vm_compute. repeat split; try reflexivity. discriminate.
Qed.

(** Three points and four output slots: the first bucket is empty and the
    call raises [ValueError], in both arithmetics. *)
Example lttb_empty_bucket :
  _lttb (F := Q) (U := zeroed) (map inject_Z [0; 1; 2]) (map inject_Z [0; 1; 0]) 4
    = Raise ValueError /\
  _lttb (F := spec_float) (U := zeroed) (map of_int [0; 1; 2])
    (map of_int [0; 1; 0]) 4 = Raise ValueError.
Proof. vm_compute. split; reflexivity. Qed.

(** ** The offset table in exact arithmetic *)

Lemma Qfloor_quot (a b : Z) : Qfloor (inject_Z a / inject_Z b) = a / b.
Proof. symmetry. apply Zdiv_Qdiv. Qed.

Lemma Qceiling_quot (a b : Z) :
  Qceiling (inject_Z a / inject_Z b) = - ((- a) / b).
Proof.
  unfold Qceiling. f_equal. rewrite <- Qfloor_quot.
  apply Qfloor_comp. rewrite inject_Z_opp. unfold Qdiv. ring.
Qed.

Lemma Qtrunc_nonneg (q : Q) : (0 <= q)%Q -> Qtrunc q = Qfloor q.
Proof.
  destruct q as [a b]. unfold Qle, Qtrunc. simpl. intros Hq.
  destruct (Z.leb_spec 0 a); [reflexivity|lia].
Qed.

Lemma inject_Z_pos (d : Z) : 0 < d -> (0 < inject_Z d)%Q.
Proof. intros Hd. change 0%Q with (inject_Z 0). now rewrite <- Zlt_Qlt. Qed.

Lemma inject_Z_nonzero (d : Z) : d <> 0 -> ~ (inject_Z d == 0)%Q.
Proof.
  intros Hd E. change 0%Q with (inject_Z 0) in E.
  apply (proj1 (inject_Z_injective d 0)) in E. contradiction.
Qed.

Lemma quot_pos (m d : Z) : 0 < m -> 0 < d -> (0 < inject_Z m / inject_Z d)%Q.
Proof.
  intros Hm Hd. apply Qlt_shift_div_l; [now apply inject_Z_pos|].
  rewrite Qmult_0_l. now apply inject_Z_pos.
Qed.

(** Cell [i] of [np.arange(1, n, m / d)], once cast, is [1 + i * m / d] on
    integers. *)
Lemma arange_cell (m d i : Z) :
  0 <= m -> 0 < d -> 0 <= i ->
  Qtrunc (if i =? 0 then inject_Z 1
          else if i =? 1 then (inject_Z 1 + inject_Z m / inject_Z d)%Q
          else (inject_Z 1
                + inject_Z i * (inject_Z 1 + inject_Z m / inject_Z d
                                - inject_Z 1))%Q)
  = 1 + i * m / d.
Proof.
  intros Hm Hd Hi.
  assert (Hd0 : ~ (inject_Z d == 0)%Q) by (apply inject_Z_nonzero; lia).
  assert (E : ((if i =? 0 then inject_Z 1
          else if i =? 1 then (inject_Z 1 + inject_Z m / inject_Z d)%Q
          else (inject_Z 1
                + inject_Z i * (inject_Z 1 + inject_Z m / inject_Z d
                                - inject_Z 1))%Q)
               == inject_Z (1 * d + i * m) / inject_Z d)%Q).
  { destruct (Z.eqb_spec i 0) as [->|H0]; [|destruct (Z.eqb_spec i 1) as [->|H1]];
      rewrite inject_Z_plus, !inject_Z_mult;
      change (inject_Z 1) with 1%Q; change (inject_Z 0) with 0%Q;
      field; assumption. }
  rewrite Qtrunc_nonneg.
  - rewrite (Qfloor_comp _ _ E), Qfloor_quot.
    now rewrite Z.div_add_l by lia.
  - rewrite E. apply Qle_shift_div_l; [now apply inject_Z_pos|].
    rewrite Qmult_0_l. change 0%Q with (inject_Z 0). rewrite <- Zle_Qle. nia.
Qed.

Lemma exact_length (m d : Z) :
  0 < d -> d <= m ->
  Qceiling (inject_Z (m + 1) / (inject_Z m / inject_Z d)) = d + 1.
Proof.
  intros Hd Hm.
  assert (Hd0 : ~ (inject_Z d == 0)%Q) by (apply inject_Z_nonzero; lia).
  assert (Hm0 : ~ (inject_Z m == 0)%Q) by (apply inject_Z_nonzero; lia).
  assert (E : (inject_Z (m + 1) / (inject_Z m / inject_Z d)
               == inject_Z ((m + 1) * d) / inject_Z m)%Q).
  { rewrite inject_Z_mult. field. split; assumption. }
  rewrite (Qceiling_comp _ _ E), Qceiling_quot.
  assert (Q : - ((m + 1) * d) / m = - (d + 1)).
  { symmetry. apply (Z.div_unique_pos _ _ _ (m - d)); lia. }
  rewrite Q. lia.
Qed.

Lemma exact_offset (n n_out : Z) :
  3 <= n_out -> n_out <= n ->
  lttb_offset (F := Q) n n_out = Ok (exact_table n n_out).
Proof.
  intros Hout Hn. unfold lttb_offset.
  destruct (Z.eqb_spec (n_out - 2) 0); [lia|].
  unfold np_arange, block_size.
  assert (Hz : fis_zero (F := Q)
                 (fdiv (of_int (n - 2)) (of_int (n_out - 2))) = false).
  { unfold fis_zero. apply andb_false_iff. left.
    cbn [fleb fdiv of_int exact_Q].
    destruct (Qle_bool (inject_Z (n - 2) / inject_Z (n_out - 2)) (inject_Z 0))
      eqn:Eb; [|reflexivity].
    apply Qle_bool_iff in Eb. exfalso.
    apply (Qlt_not_le _ _ (quot_pos (n - 2) (n_out - 2) ltac:(lia) ltac:(lia))).
    exact Eb. }
  rewrite Hz. cbn [fceil fdiv of_int exact_Q].
  replace (n - 1) with (n - 2 + 1) by lia.
  rewrite exact_length by lia. cbn [bind].
  unfold astype_int64, exact_table. rewrite map_map.
  replace (n_out - 2 + 1) with (n_out - 1) by lia.
  f_equal. apply map_ext_in. intros i Hi. apply in_range_iff in Hi.
  cbn [ftrunc fadd fsub fmul fdiv of_int exact_Q].
  apply arange_cell; lia.
Qed.

Lemma zth_map_range (f : Z -> Z) (n k : Z) :
  0 <= k < n -> zth (map f (range n)) k = f k.
Proof.
  intros Hk. unfold zth.
  rewrite nth_indep with (d' := f 0)
    by (rewrite length_map; pose proof (len_range n); unfold len in *; lia).
  rewrite map_nth. f_equal. now apply nth_range.
Qed.

Lemma len_exact_table (n n_out : Z) :
  3 <= n_out -> len (exact_table n n_out) = n_out - 1.
Proof.
  intros Hout. unfold exact_table. rewrite len_map, len_range. lia.
Qed.

Lemma zth_exact_table (n n_out k : Z) :
  0 <= k < n_out - 1 ->
  zth (exact_table n n_out) k = 1 + k * (n - 2) / (n_out - 2).
Proof. intros Hk. unfold exact_table. now rewrite zth_map_range. Qed.

(** In exact arithmetic no bucket is empty as soon as [n >= n_out >= 3], and
    the last boundary is the last position. *)
Lemma exact_buckets_nonempty (n n_out : Z) :
  3 <= n_out -> n_out <= n ->
  buckets_nonempty n n_out (exact_table n n_out).
Proof.
  intros Hout Hn. split; [now apply len_exact_table|].
  intros k Hk. rewrite !zth_exact_table by lia.
  set (m := n - 2). set (d := n_out - 2).
  assert (Hd : 0 < d) by (unfold d; lia).
  assert (Hm : d <= m) by (unfold d, m; lia).
  assert (H0 : 0 <= k * m / d) by (apply Z.div_pos; nia).
  assert (H1 : k * m / d + 1 <= (k + 1) * m / d).
  { rewrite <- (Z.div_add _ 1 d) by lia. apply Z.div_le_mono; nia. }
  assert (H2 : (k + 1) * m / d <= m).
  { rewrite <- (Z.div_mul m d) at 2 by lia. apply Z.div_le_mono; [lia|].
    unfold d in *. nia. }
  unfold m in *. lia.
Qed.


(** ** The argmax in exact arithmetic *)










(** The run of [_lttb] in exact arithmetic. *)
Lemma exact_run {U : Uninit} (x y : list Q) (n_out : Z) :
  3 <= n_out -> len x = len y -> n_out <= len y ->
  exists r, _lttb x y n_out = Ok r /\
            lttb_outcome x y n_out (exact_table (len y) n_out) r.
Proof.
  intros Hout Hlen Hn.
  apply lttb_run; try assumption.
  - now apply exact_offset.
  - now apply exact_buckets_nonempty.
Qed.

(** ** The selection in exact arithmetic *)









(** C5, as the code has it.  In exact arithmetic, for [n >= n_out >= 3], the
    offset table has [n_out - 1] entries and entry [i] is the floor of
    [1 + i * block_size], where [block_size] is the quotient of [n - 2] by
    [n_out - 2] as a rational.  For 100 points and 10 output slots the
    quotient is 49/4 and the table is 1, 13, 25, 37, 50, 62, 74, 86, 99, in
    exact arithmetic and in binary64; stepping by the integer quotient 12
    gives another table. *)
Theorem lttb_offset_formula :
  (forall n n_out, 3 <= n_out -> n_out <= n ->
     exists offset,
       lttb_offset (F := Q) n n_out = Ok offset /\
       len offset = n_out - 1 /\
       forall i, 0 <= i < n_out - 1 ->
         zth offset i = Qfloor (1 + inject_Z i * block_size n n_out)) /\
  lttb_offset (F := Q) 100 10 = Ok [1; 13; 25; 37; 50; 62; 74; 86; 99] /\
  lttb_offset (F := spec_float) 100 10 = Ok [1; 13; 25; 37; 50; 62; 74; 86; 99] /\
  (block_size (F := Q) 100 10 == 49 # 4)%Q /\
  map (fun i => 1 + i * ((100 - 2) / (10 - 2))) (range (10 - 1))
    <> [1; 13; 25; 37; 50; 62; 74; 86; 99].
Proof.
  split; [|split; [|split; [|split]]].
  - intros n n_out Hout Hn. exists (exact_table n n_out).
    split; [now apply exact_offset|]. split; [now apply len_exact_table|].
    intros i Hi. rewrite zth_exact_table by assumption.
    unfold block_size. cbn [fdiv of_int exact_Q].
    assert (Hd0 : ~ (inject_Z (n_out - 2) == 0)%Q)
      by (apply inject_Z_nonzero; lia).
    assert (E : (1 + inject_Z i * (inject_Z (n - 2) / inject_Z (n_out - 2))
                 == inject_Z (1 * (n_out - 2) + i * (n - 2))
                    / inject_Z (n_out - 2))%Q).
    { rewrite inject_Z_plus, !inject_Z_mult. change (inject_Z 1) with 1%Q.
      field. assumption. }
    rewrite (Qfloor_comp _ _ E), Qfloor_quot.
    now rewrite Z.div_add_l by lia.
  - vm_compute. reflexivity.
  - vm_compute. reflexivity.
  - vm_compute. reflexivity.
  - vm_compute. discriminate.
Qed.

(** C5 fails as stated, for every [n >= n_out >= 3], in binary64.  With six
    points and five output slots [block_size] is the float next below 4/3;
    the step that fills the array, the difference of the first two cells, is
    not [block_size]; entry 3 of the table is 4, while [1 + 3 * block_size]
    is 5 when it is evaluated in binary64 and when it is evaluated in exact
    arithmetic. *)
Lemma lttb_offset_rounding :
  3 <= 5 <= 6 /\
  lttb_offset (F := spec_float) 6 5 = Ok [1; 2; 3; 4] /\
  SFeqb (fsub (fadd (of_int 1) (block_size 6 5)) (of_int 1))
        (block_size (F := spec_float) 6 5) = false /\
  ftrunc (fadd (of_int 1) (fmul (of_int 3) (block_size (F := spec_float) 6 5)))
    = 5 /\
  Qfloor (1 + inject_Z 3 * block_size (F := Q) 6 5) = 5 /\
  lttb_offset (F := Q) 6 5 = Ok [1; 2; 3; 5].
Proof. vm_compute. repeat split; try reflexivity; discriminate. Qed.

(** ** Buckets without the hypothesis *)

(** In exact arithmetic the buckets of C1 and C9 are never empty: the shape
    of the selection needs no hypothesis on the table. *)
Lemma exact_selection_shape {U : Uninit} (x y : list Q) (n_out : Z) :
  3 <= n_out -> len x = len y -> n_out <= len y ->
  exists r, _lttb x y n_out = Ok r /\
            len r = n_out /\ strictly_increasing r /\
            zth r 0 = 0 /\ zth r (n_out - 1) = len y - 1.
Proof.
  intros Hout Hlen Hn.
  destruct (exact_run x y n_out Hout Hlen Hn)
    as (r & Er & Hr & H0 & Hlast & Hin & _).
  exists r. rewrite Hlen in Hlast. repeat split; try assumption.
  apply (containment_increasing (len y) n_out (exact_table (len y) n_out));
    try assumption.
  now apply exact_buckets_nonempty.
Qed.

Lemma tables_nonemptyb_true {F} `{Float64 F} (bound : Z) :
  tables_nonemptyb bound = true ->
  forall n n_out, 3 <= n_out -> n_out <= n -> n <= bound ->
    exists offset, lttb_offset n n_out = Ok offset /\
                   buckets_nonempty n n_out offset.
Proof.
  unfold tables_nonemptyb. rewrite forallb_forall. intros Hall n n_out H3 Hn Hb.
  assert (In1 : In n (map (Z.add 3) (range (bound - 2)))).
  { apply in_map_iff. exists (n - 3). split; [lia|]. apply in_range_iff. lia. }
  specialize (Hall n In1). rewrite forallb_forall in Hall.
  assert (In2 : In n_out (map (Z.add 3) (range (n - 2)))).
  { apply in_map_iff. exists (n_out - 3). split; [lia|]. apply in_range_iff. lia. }
  specialize (Hall n_out In2).
  destruct (lttb_offset n n_out) as [offset|]; [|discriminate].
  exists offset. split; [reflexivity|]. now apply buckets_nonemptyb_true.
Qed.

(** In binary64 they are not empty either for the series of at most 40
    points, although rounding moves some boundaries. *)
Example binary64_buckets_small (n n_out : Z) :
  3 <= n_out -> n_out <= n -> n <= 40 ->
  exists offset, lttb_offset (F := spec_float) n n_out = Ok offset /\
                 buckets_nonempty n n_out offset.
Proof.
  apply (tables_nonemptyb_true (F := spec_float) 40).
  vm_compute. reflexivity.
Qed.

(** * Further properties *)

(** ** What a call of [_lttb] guarantees without any hypothesis *)

Lemma lttb_step_pick {F} `{Float64 F} (x y : list F) (offset : list Z)
  (i a : Z) (s : list Z) :
  lttb_step x y offset i (a, s)
  = (a' <- lttb_pick x y offset i a ;;
     s' <- setitem s (i + 1) a' ;;
     Ok (a', s')).
Proof.
  unfold lttb_step, lttb_pick.
  destruct (getitem x a); cbn [bind]; [|reflexivity].
  destruct (getitem y a); cbn [bind]; [|reflexivity].
  destruct (getitem offset (i + 1)); cbn [bind]; [|reflexivity].
  destruct (getitem offset (i + 2)); cbn [bind]; [|reflexivity].
  destruct (getitem offset i); cbn [bind]; [|reflexivity].
  destruct (_argmax_area _ _ _ _ _ _); cbn [bind]; reflexivity.
Qed.

Lemma lttb_step_writes {F} `{Float64 F} (x y : list F) (offset : list Z)
  (i a a' : Z) (s s' : list Z) :
  0 <= i ->
  lttb_step x y offset i (a, s) = Ok (a', s') ->
  i + 1 < len s /\ s' = update s (Z.to_nat (i + 1)) a'.
Proof.
  intros Hi. rewrite lttb_step_pick.
  destruct (lttb_pick x y offset i a) as [c|]; cbn [bind]; try discriminate.
  unfold setitem.
  destruct (py_index (len s) (i + 1)) as [k|] eqn:Ek; cbn [bind];
    try discriminate.
  intros [= <- <-].
  unfold py_index in Ek.
  destruct (Z.leb_spec 0 (i + 1)); [|lia].
  destruct (Z.ltb_spec (i + 1) (len s)); simpl in Ek.
  - injection Ek as <-. split; [lia|reflexivity].
  - destruct (Z.leb_spec (- len s) (i + 1)), (Z.ltb_spec (i + 1) 0);
      simpl in Ek; try discriminate; lia.
Qed.

Lemma for_each_keeps_ends {F} `{Float64 F} (x y : list F) (offset : list Z)
  (n_out v : Z) (l : list Z) :
  Forall (fun i => 0 <= i < n_out - 3) l ->
  forall a s a' s',
    for_each (lttb_step x y offset) l (a, s) = Ok (a', s') ->
    len s = n_out -> zth s 0 = 0 -> zth s (n_out - 1) = v ->
    len s' = n_out /\ zth s' 0 = 0 /\ zth s' (n_out - 1) = v.
Proof.
  induction 1 as [|i t Hi Ht IH]; intros a s a' s'; cbn [for_each].
  - intros [= <- <-]. auto.
  - destruct (lttb_step x y offset i (a, s)) as [[a1 s1]|] eqn:E1;
      cbn [bind]; try discriminate.
    intros E2 Hs H0 Hv.
    destruct (lttb_step_writes x y offset i a a1 s s1 ltac:(lia) E1)
      as [Hlt ->].
    apply (IH _ _ _ _ E2).
    + now rewrite len_update.
    + rewrite zth_update_other by lia. assumption.
    + rewrite zth_update_other by lia. assumption.
Qed.

Lemma range_bounds (n : Z) : Forall (fun i => 0 <= i < n) (range n).
Proof. apply Forall_forall. intros i Hi. now apply in_range_iff. Qed.

Lemma setitem_from_end_inv {A} (l l' : list A) (i : Z) (v : A) :
  i < 0 -> setitem l i v = Ok l' ->
  - len l <= i /\ l' = update l (Z.to_nat (i + len l)) v.
Proof.
  intros Hi. unfold setitem, py_index.
  destruct (Z.leb_spec 0 i); [lia|]. simpl.
  destruct (Z.leb_spec (- len l) i), (Z.ltb_spec i 0); simpl;
    try discriminate; try lia.
  intros [= <-]. split; [lia|reflexivity].
Qed.

Lemma setitem_nonneg_inv {A} (l l' : list A) (i : Z) (v : A) :
  0 <= i -> setitem l i v = Ok l' ->
  i < len l /\ l' = update l (Z.to_nat i) v.
Proof.
  intros Hi. unfold setitem, py_index.
  destruct (Z.leb_spec 0 i); [|lia].
  destruct (Z.ltb_spec i (len l)); simpl.
  - intros [= <-]. split; [lia|reflexivity].
  - destruct (Z.leb_spec (- len l) i), (Z.ltb_spec i 0); simpl;
      try discriminate; lia.
Qed.

Lemma lttb_offset_not_two {F} `{Float64 F} (n n_out : Z) (offset : list Z) :
  lttb_offset n n_out = Ok offset -> n_out <> 2.
Proof.
  unfold lttb_offset. destruct (Z.eqb_spec (n_out - 2) 0); [discriminate|lia].
Qed.

Lemma lttb_ok_ends {F} {FA : Float64 F} {U : Uninit}
  (x y : list F) (n_out : Z) (r : list Z) :
  _lttb x y n_out = Ok r ->
  3 <= n_out /\ zth r 0 = 0 /\ zth r (n_out - 1) = len x - 1.
Proof.
  unfold _lttb.
  destruct (lttb_offset (len y) n_out) as [offset|] eqn:Eo; cbn [bind];
    try discriminate.
  destruct (np_empty n_out) as [s0|] eqn:E0; cbn [bind]; try discriminate.
  destruct (setitem s0 0 0) as [s1|] eqn:E1; cbn [bind]; try discriminate.
  destruct (setitem s1 (-1) (len x - 1)) as [s2|] eqn:E2; cbn [bind];
    try discriminate.
  destruct (for_each _ _ _) as [[a s3]|] eqn:E3; cbn [bind]; try discriminate.
  destruct (getitem x a); cbn [bind]; try discriminate.
  destruct (getitem y a); cbn [bind]; try discriminate.
  destruct (getitem x (-1)); cbn [bind]; try discriminate.
  destruct (getitem y (-1)); cbn [bind]; try discriminate.
  destruct (getitem offset (-2)) as [o2|]; cbn [bind]; try discriminate.
  destruct (getitem offset (-1)); cbn [bind]; try discriminate.
  destruct (_argmax_area _ _ _ _ _ _) as [j|]; cbn [bind]; try discriminate.
  intros E4.
  pose proof (len_np_empty _ _ E0) as L0.
  pose proof (lttb_offset_not_two _ _ _ Eo) as Hne.
  destruct (setitem_nonneg_inv s0 s1 0 0 ltac:(lia) E1) as [H1 ->].
  destruct (setitem_from_end_inv _ s2 (-1) (len x - 1) ltac:(lia) E2) as [H2 ->].
  rewrite len_update, L0 in H2.
  rewrite len_update, L0 in E3.
  replace (-1 + n_out) with (n_out - 1) in E3 by lia.
  assert (L3 : len s3 = n_out).
  { apply for_each_len in E3. simpl in E3. rewrite E3.
    now rewrite !len_update. }
  destruct (setitem_from_end_inv s3 r (-2) (j + o2) ltac:(lia) E4) as [H4 ->].
  rewrite L3 in H4 |- *.
  assert (Hout : 3 <= n_out) by lia.
  split; [assumption|].
  destruct (for_each_keeps_ends x y offset n_out (len x - 1)
              (range (n_out - 3)) (range_bounds _) _ _ _ _ E3)
    as (_ & K0 & K1).
  - now rewrite !len_update.
  - rewrite zth_update_other by lia. apply zth_update_same. lia.
  - apply zth_update_same. rewrite len_update. lia.
  - replace (-2 + n_out) with (n_out - 2) by lia.
    split; rewrite zth_update_other by lia; assumption.
Qed.


(** X1.  In any arithmetic and for any arrays, when [_lttb] returns a
    selection the output count is at least three, the first index is 0 and
    the last is the last position of [x]: the two end points are kept
    whatever the offset table is. *)
Theorem lttb_keeps_end_points {F} {FA : Float64 F} {U : Uninit}
  (x y : list F) (n_out : Z) (r : list Z) :
  _lttb x y n_out = Ok r ->
  3 <= n_out /\ zth r 0 = 0 /\ zth r (n_out - 1) = len x - 1.
Proof. apply lttb_ok_ends. Qed.

(** The selection of the first C1 witness series, in binary64. *)
Lemma lttb_keeps_end_points_witness :
  3 <= 5 /\ zth [0; 1; 2; 3; 5] 0 = 0 /\
  zth [0; 1; 2; 3; 5] (5 - 1)
  = len (map (of_int (F := spec_float)) [0; 1; 2; 3; 4; 5]) - 1.
Proof.
  apply (lttb_keeps_end_points (F := spec_float) (U := zeroed)
           (map of_int [0; 1; 2; 3; 4; 5]) (map of_int [3; 1; 4; 1; 5; 9]) 5
           [0; 1; 2; 3; 5]).
  vm_compute. reflexivity.
Defined.

(** ** The cells that [np.empty] leaves uninitialised *)

Lemma lttb_unfold {F} {FA : Float64 F} {U : Uninit} (x y : list F) (n_out : Z) :
  _lttb x y n_out
  = (offset <- lttb_offset (len y) n_out ;;
     sampled_x <- np_empty n_out ;;
     lttb_fill x y n_out offset sampled_x).
Proof. reflexivity. Qed.

Lemma same_cells_weaken (W W' : Z -> Prop) (s1 s2 : list Z) :
  (forall k, 0 <= k -> W' k -> W k) ->
  same_cells W s1 s2 -> same_cells W' s1 s2.
Proof. intros Hsub [Hl Hc]. split; auto. Qed.

Lemma same_states_weaken (W W' : Z -> Prop) (r1 r2 : Result (Z * list Z)) :
  (forall k, 0 <= k -> W' k -> W k) ->
  same_states W r1 r2 -> same_states W' r1 r2.
Proof.
  intros Hsub. destruct r1 as [[a1 s1]|e1], r2 as [[a2 s2]|e2]; simpl; auto.
  intros [Ha Hc]. split; [assumption|]. now apply (same_cells_weaken W).
Qed.

Lemma same_cells_update (W : Z -> Prop) (s1 s2 : list Z) (k v : Z) :
  same_cells W s1 s2 -> 0 <= k < len s1 ->
  same_cells (fun j => W j \/ j = k)
    (update s1 (Z.to_nat k) v) (update s2 (Z.to_nat k) v).
Proof.
  intros [Hl Hc] Hk. split; [now rewrite !len_update|].
  intros j Hj Hw. destruct (Z.eq_dec j k) as [->|Hne].
  - rewrite !zth_update_same by lia. reflexivity.
  - rewrite !zth_update_other by lia. destruct Hw; [auto|contradiction].
Qed.

(** Writing the same value through the same index into two arrays of the
    same length: both writes fail alike, or both land in the same cell. *)
Lemma setitem_same (W : Z -> Prop) (s1 s2 : list Z) (i v : Z) :
  same_cells W s1 s2 ->
  match setitem s1 i v, setitem s2 i v with
  | Ok t1, Ok t2 =>
      exists k, 0 <= k < len s1 /\ (k = i \/ k = i + len s1) /\
                same_cells (fun j => W j \/ j = k) t1 t2
  | Raise e1, Raise e2 => e1 = e2
  | _, _ => False
  end.
Proof.
  intros Hc. pose proof (proj1 Hc) as Hl. unfold setitem. rewrite <- Hl.
  destruct (py_index (len s1) i) as [k|e] eqn:Ek; cbn [bind]; [|reflexivity].
  unfold py_index in Ek.
  destruct (Z.leb_spec 0 i), (Z.ltb_spec i (len s1)); simpl in Ek.
  - injection Ek as <-. exists i. split; [lia|]. split; [auto|].
    apply same_cells_update; [assumption|lia].
  - destruct (Z.leb_spec (- len s1) i), (Z.ltb_spec i 0); simpl in Ek;
      try discriminate; lia.
  - destruct (Z.leb_spec (- len s1) i), (Z.ltb_spec i 0); simpl in Ek;
      try discriminate; try lia.
    injection Ek as <-. exists (i + len s1). split; [lia|]. split; [auto|].
    apply same_cells_update; [assumption|lia].
  - destruct (Z.leb_spec (- len s1) i), (Z.ltb_spec i 0); simpl in Ek;
      try discriminate; try lia.
Qed.

Lemma lttb_step_same {F} `{Float64 F} (x y : list F) (offset : list Z)
  (W : Z -> Prop) (i a : Z) (s1 s2 : list Z) :
  0 <= i -> same_cells W s1 s2 ->
  same_states (fun j => W j \/ j = i + 1)
    (lttb_step x y offset i (a, s1)) (lttb_step x y offset i (a, s2)).
Proof.
  intros Hi Hc. rewrite !lttb_step_pick.
  destruct (lttb_pick x y offset i a) as [c|e]; cbn [bind]; [|reflexivity].
  pose proof (setitem_same W s1 s2 (i + 1) c Hc) as Hs.
  destruct (setitem s1 (i + 1) c) as [t1|e1], (setitem s2 (i + 1) c) as [t2|e2];
    cbn [bind]; simpl; try contradiction; [|assumption].
  destruct Hs as (k & Hk & Hki & Hs). split; [reflexivity|].
  apply (same_cells_weaken _ _ _ _ (fun j _ Hj => Hj)).
  replace (i + 1) with k by lia. exact Hs.
Qed.

Lemma for_each_same {F} `{Float64 F} (x y : list F) (offset l : list Z) :
  Forall (fun i => 0 <= i) l ->
  forall (W : Z -> Prop) (a : Z) (s1 s2 : list Z),
    same_cells W s1 s2 ->
    same_states (fun j => W j \/ exists i, In i l /\ j = i + 1)
      (for_each (lttb_step x y offset) l (a, s1))
      (for_each (lttb_step x y offset) l (a, s2)).
Proof.
  induction 1 as [|i t Hi Ht IH]; intros W a s1 s2 Hc; cbn [for_each].
  - simpl. split; [reflexivity|].
    apply (same_cells_weaken W); [|assumption].
    intros k _ [Hk|(i & [] & _)]. assumption.
  - pose proof (lttb_step_same x y offset W i a s1 s2 Hi Hc) as Hs.
    destruct (lttb_step x y offset i (a, s1)) as [[a1 t1]|e1],
             (lttb_step x y offset i (a, s2)) as [[a2 t2]|e2];
      cbn [bind]; simpl in Hs; try contradiction; [|assumption].
    destruct Hs as [<- Hs].
    apply (same_states_weaken _ _ _ _ ) with (2 := IH _ a1 t1 t2 Hs).
    intros k _ [Hk|(j & [<-|Hj] & ->)]; auto.
    right. exists j. auto.
Qed.

Lemma same_cells_all (s1 s2 : list Z) :
  same_cells (fun k => k < len s1) s1 s2 -> s1 = s2.
Proof.
  intros [Hl Hc]. apply (nth_ext s1 s2 0 0).
  - unfold len in Hl. lia.
  - intros n Hn. specialize (Hc (Z.of_nat n) ltac:(lia)).
    unfold zth in Hc. rewrite Nat2Z.id in Hc. apply Hc. unfold len. lia.
Qed.

Lemma lttb_fill_same {F} `{Float64 F} (x y : list F) (n_out : Z)
  (offset s1 s2 : list Z) :
  n_out <> 2 -> len s1 = n_out -> len s2 = n_out ->
  lttb_fill x y n_out offset s1 = lttb_fill x y n_out offset s2.
Proof.
  intros Hne L1 L2. unfold lttb_fill.
  assert (C0 : same_cells (fun _ => False) s1 s2)
    by (split; [congruence|intros k _ []]).
  pose proof (setitem_same _ s1 s2 0 0 C0) as S1.
  destruct (setitem s1 0 0) as [t1|e1] eqn:E1,
           (setitem s2 0 0) as [t2|e2] eqn:E2;
    cbn [bind]; try contradiction; [|now f_equal].
  destruct S1 as (k1 & Hk1 & Hk1' & C1).
  pose proof (setitem_len _ _ _ _ E1) as Lt1.
  pose proof (setitem_same _ t1 t2 (-1) (len x - 1) C1) as S2.
  destruct (setitem t1 (-1) (len x - 1)) as [u1|e1] eqn:E3,
           (setitem t2 (-1) (len x - 1)) as [u2|e2] eqn:E4;
    cbn [bind]; try contradiction; [|now f_equal].
  destruct S2 as (k2 & Hk2 & Hk2' & C2).
  pose proof (setitem_len _ _ _ _ E3) as Lu1.
  assert (Hnn : Forall (fun i => 0 <= i) (range (n_out - 3))).
  { apply Forall_forall. intros i Hi. apply in_range_iff in Hi. lia. }
  pose proof (for_each_same x y offset (range (n_out - 3)) Hnn _ 0 u1 u2 C2)
    as S3.
  destruct (for_each (lttb_step x y offset) (range (n_out - 3)) (0, u1))
    as [[a v1]|e1] eqn:E5,
    (for_each (lttb_step x y offset) (range (n_out - 3)) (0, u2))
    as [[a' v2]|e2] eqn:E6;
    cbn [bind]; simpl in S3; try contradiction; [|now f_equal].
  destruct S3 as [<- C3].
  pose proof (for_each_len _ _ _ _ _ _ E5) as Lv1. simpl in Lv1.
  destruct (getitem x a); cbn [bind]; [|reflexivity].
  destruct (getitem y a); cbn [bind]; [|reflexivity].
  destruct (getitem x (-1)); cbn [bind]; [|reflexivity].
  destruct (getitem y (-1)); cbn [bind]; [|reflexivity].
  destruct (getitem offset (-2)) as [o2|]; cbn [bind]; [|reflexivity].
  destruct (getitem offset (-1)); cbn [bind]; [|reflexivity].
  destruct (_argmax_area _ _ _ _ _ _) as [j|]; cbn [bind]; [|reflexivity].
  pose proof (setitem_same _ v1 v2 (-2) (j + o2) C3) as S4.
  destruct (setitem v1 (-2) (j + o2)) as [w1|e1] eqn:E7,
           (setitem v2 (-2) (j + o2)) as [w2|e2] eqn:E8;
    try contradiction; [|now f_equal].
  destruct S4 as (k3 & Hk3 & Hk3' & C4).
  pose proof (setitem_len _ _ _ _ E7) as Lw1.
  f_equal. apply same_cells_all.
  apply (same_cells_weaken _ _ _ _) with (2 := C4).
  intros k Hk0 Hk.
  assert (Hlen : len w1 = n_out) by congruence.
  assert (Hv : len v1 = n_out) by congruence.
  assert (Ht : len t1 = n_out) by congruence.
  destruct (Z.eq_dec k k3) as [->|N3]; [now right|]. left.
  destruct (Z.eq_dec k k2) as [->|N2]; [left; now right|].
  destruct (Z.eq_dec k k1) as [->|N1]; [left; left; now right|].
  right. exists (k - 1). split; [|lia].
  apply in_range_iff. lia.
Qed.

(** X2.  In any arithmetic and for any arguments, what [_lttb] returns or
    raises does not depend on what the cells of [np.empty] hold: every cell
    of a selection that is returned was written. *)
Theorem lttb_ignores_uninitialised {F} {FA : Float64 F} (U1 U2 : Uninit)
  (x y : list F) (n_out : Z) :
  _lttb (U := U1) x y n_out = _lttb (U := U2) x y n_out.
Proof.
  rewrite !lttb_unfold.
  destruct (lttb_offset (len y) n_out) as [offset|e] eqn:Eo; cbn [bind];
    [|reflexivity].
  pose proof (lttb_offset_not_two _ _ _ Eo) as Hne.
  unfold np_empty. destruct (Z.ltb_spec n_out 0); cbn [bind]; [reflexivity|].
  apply lttb_fill_same; [assumption| |];
    unfold len; rewrite length_map, length_seq; lia.
Qed.

(** ** The area argmax on arrays of any length *)

Lemma broadcast_add_outcome {F} `{Float64 F} (a b : list F) :
  match broadcast_add a b with
  | Ok s =>
      (len a = len b /\ len s = len a) \/
      (len a = 1 /\ len a <> len b /\ len s = len b) \/
      (len b = 1 /\ len a <> 1 /\ len s = len a)
  | Raise e => e = ValueError /\ len a <> len b /\ len a <> 1 /\ len b <> 1
  end.
Proof.
  unfold broadcast_add. destruct (Z.eqb_spec (len a) (len b)) as [E|N].
  - left. split; [assumption|]. rewrite len_map. now apply len_combine.
  - destruct a as [|u [|u' a']].
    + destruct b as [|v [|v' b']].
      * exfalso. apply N. reflexivity.
      * right. right. rewrite len_map. unfold len. simpl. lia.
      * unfold len in *. simpl in *. repeat split; try lia. 
    + right. left. rewrite len_map. unfold len in *. simpl in *. lia.
    + destruct b as [|v [|v' b']].
      * unfold len in *. simpl in *. repeat split; lia.
      * right. right. rewrite len_map. unfold len in *. simpl in *. lia.
      * unfold len in *. simpl in *. repeat split; lia.
Qed.

Lemma argmax_outcome {F} `{Float64 F} (a : list F) :
  match argmax a with
  | Ok j => 0 <= j < len a
  | Raise e => e = ValueError /\ len a = 0
  end.
Proof.
  destruct (argmax a) as [j|e] eqn:E.
  - now apply argmax_bounds.
  - destruct a; simpl in E; [|discriminate].
    injection E as <-. split; reflexivity.
Qed.

(** X3.  In any arithmetic, [_argmax_area] returns a position when both
    buckets are non-empty and have the same length or one of them has a
    single element, and the position is below the longer length; in every
    other case it raises [ValueError]. *)
Theorem argmax_area_outcome {F} {FA : Float64 F}
  (px py ax ay : F) (xb yb : list F) :
  (0 < len xb /\ 0 < len yb /\
   (len xb = len yb \/ len xb = 1 \/ len yb = 1) ->
   exists j, _argmax_area px py ax ay xb yb = Ok j /\
             0 <= j < Z.max (len xb) (len yb)) /\
  (~ (0 < len xb /\ 0 < len yb /\
      (len xb = len yb \/ len xb = 1 \/ len yb = 1)) ->
   _argmax_area px py ax ay xb yb = Raise ValueError).
Proof.
  unfold _argmax_area.
  pose proof (broadcast_add_outcome
                (map (fun xc => fmul xc (fsub py ay)) xb)
                (map (fun yc => fmul yc (fsub ax px)) yb)) as Hb.
  rewrite !len_map in Hb.
  destruct (broadcast_add _ _) as [s|e]; cbn [bind].
  - pose proof (argmax_outcome
                  (map fabs
                     (map (fun v => fadd v (fsub (fmul px ay) (fmul ax py))) s)))
      as Ha.
    rewrite !len_map in Ha.
    pose proof (len_nonneg xb). pose proof (len_nonneg yb).
    destruct (argmax _) as [j|e].
    + split.
      * intros _. exists j. split; [reflexivity|lia].
      * intros Hn. exfalso. apply Hn. lia.
    + destruct Ha as [-> Hs]. split; [|reflexivity].
      intros Hc. exfalso. lia.
  - destruct Hb as (-> & Hb). split; [|reflexivity].
    intros Hc. exfalso. lia.
Qed.

(** ** What the operation returns *)

(** X4.  Whatever the element, when the algorithm parameter is "nth" and
    the (filtered) element is longer than [width], [_process] raises
    [NameError]. *)
Theorem process_nth_raises {F E} {FA : Float64 F} {U : Uninit}
  {EL : Element F E} (p : params F) (element : E) :
  algorithm p = "nth"%string ->
  width p < element_len (ranged p element) ->
  _process p element = Raise NameError.
Proof.
  intros Ha Hlt. unfold _process.
  destruct (Z.leb_spec (element_len (ranged p element)) (width p)); [lia|].
  rewrite Ha. reflexivity.
Qed.

Lemma process_nth_raises_witness :
  _process (U := zeroed) (EL := float_table)
    {| x_range := None; width := 3; algorithm := "nth"%string |}
    {| rows := [(0#1, 3#1); (1#1, 1#1); (2#1, 4#1); (3#1, 1#1); (4#1, 5#1)]%Q |}
  = Raise NameError.
Proof.
  apply (process_nth_raises (U := zeroed) (EL := float_table)).
  - reflexivity.
  - vm_compute. reflexivity.
Defined.

Lemma lookup_algorithms {F} {FA : Float64 F} {U : Uninit} (name : string)
  (f : selector F) :
  lookup _ALGORITHMS name = Some f ->
  (name = "lttb"%string /\ f = lttb_selector) \/
  (name = "nth"%string /\ f = _nth_point).
Proof.
  unfold _ALGORITHMS. cbn [lookup].
  destruct (String.eqb_spec "lttb" name) as [<-|_].
  - intros [= <-]. now left.
  - destruct (String.eqb_spec "nth" name) as [<-|_]; [|discriminate].
    intros [= <-]. now right.
Qed.

Lemma lttb_selector_ok {F} {FA : Float64 F} {U : Uninit}
  (xs ys : ndarray F) (n_out : Z) (samples : list Z) :
  lttb_selector xs ys n_out = Ok samples ->
  3 <= n_out /\ len samples = n_out.
Proof.
  unfold lttb_selector.
  destruct (operand xs) as [x|]; cbn [bind]; try discriminate.
  destruct (operand ys) as [y|]; cbn [bind]; try discriminate.
  intros E. split.
  - apply (lttb_ok_ends x y n_out samples E).
  - apply (lttb_complete x y n_out samples E).
Qed.

Lemma process_ok_cases {F E} {FA : Float64 F} {U : Uninit}
  {EL : Element F E} (p : params F) (element result : E) :
  (forall e samples e', iloc e samples = Ok e' -> element_len e' = len samples) ->
  _process p element = Ok result ->
  (result = ranged p element /\ element_len result <= width p) \/
  (algorithm p = "lttb"%string /\ 3 <= width p /\
   width p < element_len (ranged p element) /\
   element_len result = width p).
Proof.
  intros Hiloc. unfold _process.
  destruct (Z.leb_spec (element_len (ranged p element)) (width p)) as [Hle|Hlt].
  - intros [= <-]. now left.
  - unfold dict_getitem.
    destruct (lookup _ALGORITHMS (algorithm p)) as [f|] eqn:El; cbn [bind];
      try discriminate.
    destruct (lookup_algorithms _ _ El) as [[Hn ->]|[Hn ->]].
    + destruct (lttb_selector _ _ (width p)) as [samples|] eqn:Es; cbn [bind];
        try discriminate.
      intros Hr. right. destruct (lttb_selector_ok _ _ _ _ Es) as [H3 Hs].
      rewrite (Hiloc _ _ _ Hr). auto.
    + cbn [bind]. discriminate.
Qed.

(** X5.  For an element whose [iloc] returns as many rows as it is given
    indices: when [_process] returns, it returns either the (filtered)
    element itself, which has at most [width] rows, or the rows that "lttb"
    selected, and then [width] is at least three and the result has exactly
    [width] rows.  No other algorithm name ever leads to a result that is
    downsampled. *)
Theorem process_returns {F E} {FA : Float64 F} {U : Uninit}
  {EL : Element F E} (p : params F) (element result : E) :
  (forall e samples e', iloc e samples = Ok e' -> element_len e' = len samples) ->
  _process p element = Ok result ->
  (result = ranged p element /\ element_len result <= width p) \/
  (algorithm p = "lttb"%string /\ 3 <= width p /\
   width p < element_len (ranged p element) /\
   element_len result = width p).
Proof. apply process_ok_cases. Qed.

Lemma len_select_rows {A} (l : list A) (samples : list Z) (r : list A) :
  select_rows l samples = Ok r -> len r = len samples.
Proof.
  revert r. induction samples as [|i t IH]; intros r; simpl.
  - now intros [= <-].
  - destruct (getitem l i); cbn [bind]; try discriminate.
    destruct (select_rows l t) as [r'|]; cbn [bind]; try discriminate.
    intros [= <-]. specialize (IH r' eq_refl). unfold len in *. simpl. lia.
Qed.

Lemma table_iloc_len {F Y} `{Float64 F} (column : list Y -> ndarray F)
  (t : table F Y) (samples : list Z) (t' : table F Y) :
  iloc (Element := table_element column) t samples = Ok t' ->
  element_len (Element := table_element column) t' = len samples.
Proof.
  simpl. destruct (select_rows (rows t) samples) as [r|] eqn:E; cbn [bind];
    try discriminate.
  intros [= <-]. simpl. now apply (len_select_rows (rows t)).
Qed.

Lemma process_returns_witness :
  let t := {| rows := [(0#1, false); (1#1, true); (2#1, false); (3#1, true);
                       (4#1, true)]%Q |} in
  let p := {| x_range := None; width := 3; algorithm := "lttb"%string |} in
  let result := {| rows := [(0#1, false); (1#1, true); (4#1, true)]%Q |} in
  (result = ranged (EL := bool_table) p t /\
   element_len (Element := bool_table) result <= width p) \/
  (algorithm p = "lttb"%string /\ 3 <= width p /\
   width p < element_len (Element := bool_table) (ranged (EL := bool_table) p t) /\
   element_len (Element := bool_table) result = width p).
Proof.
  intros t p result.
  apply (process_returns (U := zeroed) (EL := bool_table) p t result).
  - apply table_iloc_len.
  - vm_compute. reflexivity.
Defined.

(** ** Series that are too short, in exact arithmetic *)

Lemma exact_offset_general (n n_out : Z) :
  3 <= n_out -> 3 <= n ->
  lttb_offset (F := Q) n n_out
  = Ok (map (fun i => 1 + i * (n - 2) / (n_out - 2))
            (range (- (- ((n - 1) * (n_out - 2)) / (n - 2))))).
Proof.
  intros Hout Hn. unfold lttb_offset.
  destruct (Z.eqb_spec (n_out - 2) 0); [lia|].
  unfold np_arange, block_size.
  assert (Hz : fis_zero (F := Q)
                 (fdiv (of_int (n - 2)) (of_int (n_out - 2))) = false).
  { unfold fis_zero. apply andb_false_iff. left.
    cbn [fleb fdiv of_int exact_Q].
    destruct (Qle_bool (inject_Z (n - 2) / inject_Z (n_out - 2)) (inject_Z 0))
      eqn:Eb; [|reflexivity].
    apply Qle_bool_iff in Eb. exfalso.
    apply (Qlt_not_le _ _ (quot_pos (n - 2) (n_out - 2) ltac:(lia) ltac:(lia))).
    exact Eb. }
  rewrite Hz. cbn [fceil fdiv of_int exact_Q].
  assert (Hd0 : ~ (inject_Z (n_out - 2) == 0)%Q) by (apply inject_Z_nonzero; lia).
  assert (Hm0 : ~ (inject_Z (n - 2) == 0)%Q) by (apply inject_Z_nonzero; lia).
  assert (E : (inject_Z (n - 1) / (inject_Z (n - 2) / inject_Z (n_out - 2))
               == inject_Z ((n - 1) * (n_out - 2)) / inject_Z (n - 2))%Q).
  { rewrite inject_Z_mult. field. split; assumption. }
  rewrite (Qceiling_comp _ _ E), Qceiling_quot. cbn [bind].
  unfold astype_int64. rewrite map_map.
  f_equal. apply map_ext_in. intros i Hi. apply in_range_iff in Hi.
  cbn [ftrunc fadd fsub fmul fdiv of_int exact_Q].
  apply arange_cell; lia.
Qed.

Lemma range_first (n : Z) : 0 < n -> exists t, range n = 0 :: t.
Proof.
  intros Hn. unfold range.
  destruct (Z.to_nat n) as [|k] eqn:E; [lia|].
  simpl. eexists. reflexivity.
Qed.

Lemma py_slice_empty {A} (l : list A) (lo : Z) : py_slice l lo lo = [].
Proof. unfold py_slice. now rewrite Z.sub_diag. Qed.

Lemma lttb_first_turn_raises {F} {FA : Float64 F} {U : Uninit}
  (x y : list F) (n_out : Z) (offset : list Z) (e : exn) :
  4 <= n_out ->
  lttb_offset (len y) n_out = Ok offset ->
  (forall s, lttb_step x y offset 0 (0, s) = Raise e) ->
  _lttb x y n_out = Raise e.
Proof.
  intros Hout Eo Hstep. unfold _lttb. rewrite Eo. cbn [bind].
  destruct (np_empty_ok n_out ltac:(lia)) as (s0 & E0 & L0).
  rewrite E0. cbn [bind].
  rewrite setitem_nonneg by lia. cbn [bind].
  rewrite setitem_from_end by (rewrite len_update; lia). cbn [bind].
  destruct (range_first (n_out - 3) ltac:(lia)) as [t ->].
  cbn [for_each]. rewrite Hstep. reflexivity.
Qed.

Lemma lttb_no_turn_raises {F} {FA : Float64 F} {U : Uninit}
  (x y : list F) (offset : list Z) :
  lttb_offset (len y) 3 = Ok offset ->
  getitem x 0 = Raise IndexError \/
  (len x = 1 /\ len y = 1 /\ offset = []) ->
  _lttb x y 3 = Raise IndexError.
Proof.
  intros Eo Hc. unfold _lttb. rewrite Eo. cbn [bind].
  destruct (np_empty_ok 3 ltac:(lia)) as (s0 & E0 & L0).
  rewrite E0. cbn [bind].
  rewrite setitem_nonneg by lia. cbn [bind].
  rewrite setitem_from_end by (rewrite len_update; lia). cbn [bind].
  change (range (3 - 3)) with (@nil Z). cbn [for_each bind].
  destruct Hc as [Hx|(Lx & Ly & ->)].
  - now rewrite Hx.
  - destruct x as [|u [|u' x']]; unfold len in Lx; simpl in Lx; try lia.
    destruct y as [|v [|v' y']]; unfold len in Ly; simpl in Ly; try lia.
    reflexivity.
Qed.

Lemma getitem_empty {A} (i : Z) : getitem (@nil A) i = Raise IndexError.
Proof.
  unfold getitem, py_index. change (len (@nil A)) with 0. change (- 0) with 0.
  assert (E : (0 <=? i) && (i <? 0) = false).
  { apply andb_false_iff. destruct (Z.leb_spec 0 i); [right|left; reflexivity].
    apply Z.ltb_ge. lia. }
  rewrite E. reflexivity.
Qed.

Lemma exact_offset_one (n_out : Z) :
  3 <= n_out -> lttb_offset (F := Q) 1 n_out = Ok [].
Proof.
  intros Hout. unfold lttb_offset.
  destruct (Z.eqb_spec (n_out - 2) 0); [lia|].
  unfold np_arange, block_size.
  assert (Hd0 : ~ (inject_Z (n_out - 2) == 0)%Q) by (apply inject_Z_nonzero; lia).
  assert (Hneg : (inject_Z (1 - 2) / inject_Z (n_out - 2) < 0)%Q).
  { apply Qlt_shift_div_r; [apply inject_Z_pos; lia|].
    rewrite Qmult_0_l. reflexivity. }
  assert (Hz : fis_zero (F := Q)
                 (fdiv (of_int (1 - 2)) (of_int (n_out - 2))) = false).
  { unfold fis_zero. apply andb_false_iff. right.
    cbn [fleb fdiv of_int exact_Q].
    destruct (Qle_bool (inject_Z 0) (inject_Z (1 - 2) / inject_Z (n_out - 2)))
      eqn:Eb; [|reflexivity].
    apply Qle_bool_iff in Eb. exfalso. apply (Qlt_not_le _ _ Hneg). exact Eb. }
  rewrite Hz. cbn [fceil fdiv of_int exact_Q].
  assert (E : (inject_Z (1 - 1) / (inject_Z (1 - 2) / inject_Z (n_out - 2))
               == inject_Z 0)%Q).
  { change (inject_Z (1 - 1)) with 0%Q. unfold Qdiv. ring. }
  rewrite (Qceiling_comp _ _ E), Qceiling_Z. reflexivity.
Qed.

Lemma exact_offset_zero (n_out : Z) :
  3 <= n_out -> exists offset, lttb_offset (F := Q) 0 n_out = Ok offset.
Proof.
  intros Hout. unfold lttb_offset.
  destruct (Z.eqb_spec (n_out - 2) 0); [lia|].
  unfold np_arange, block_size.
  assert (Hneg : (inject_Z (0 - 2) / inject_Z (n_out - 2) < 0)%Q).
  { apply Qlt_shift_div_r; [apply inject_Z_pos; lia|].
    rewrite Qmult_0_l. reflexivity. }
  assert (Hz : fis_zero (F := Q)
                 (fdiv (of_int (0 - 2)) (of_int (n_out - 2))) = false).
  { unfold fis_zero. apply andb_false_iff. right.
    cbn [fleb fdiv of_int exact_Q].
    destruct (Qle_bool (inject_Z 0) (inject_Z (0 - 2) / inject_Z (n_out - 2)))
      eqn:Eb; [|reflexivity].
    apply Qle_bool_iff in Eb. exfalso. apply (Qlt_not_le _ _ Hneg). exact Eb. }
  rewrite Hz. cbn [fceil fdiv of_int exact_Q bind]. eexists. reflexivity.
Qed.

Lemma exact_offset_two (n_out : Z) :
  3 <= n_out -> lttb_offset (F := Q) 2 n_out = Raise ZeroDivisionError.
Proof.
  intros Hout. unfold lttb_offset.
  destruct (Z.eqb_spec (n_out - 2) 0); [lia|].
  unfold np_arange, block_size.
  assert (E : (inject_Z (2 - 2) / inject_Z (n_out - 2) == inject_Z 0)%Q).
  { change (inject_Z (2 - 2)) with 0%Q. unfold Qdiv. ring. }
  assert (Hz : fis_zero (F := Q)
                 (fdiv (of_int (2 - 2)) (of_int (n_out - 2))) = true).
  { unfold fis_zero. cbn [fleb fdiv of_int exact_Q].
    apply andb_true_intro. split; apply Qle_bool_iff; rewrite E; apply Qle_refl. }
  rewrite Hz. reflexivity.
Qed.

Lemma lttb_short_core {U : Uninit} (x y : list Q) (n_out : Z) :
  len x = len y -> 3 <= n_out ->
  (len y <= 1 -> _lttb x y n_out = Raise IndexError) /\
  (len y = 2 -> _lttb x y n_out = Raise ZeroDivisionError) /\
  (3 <= len y -> len y < n_out -> _lttb x y n_out = Raise ValueError).
Proof.
  intros Hlen Hout. split; [|split].
  - intros Hy. pose proof (len_nonneg y) as Hy0.
    destruct (Z.eq_dec (len y) 1) as [Ly|Ly].
    + pose proof (exact_offset_one n_out Hout) as Eo. rewrite <- Ly in Eo.
      destruct (Z.eq_dec n_out 3) as [->|Hn].
      * apply (lttb_no_turn_raises x y [] Eo). right. split; [lia|]. auto.
      * apply (lttb_first_turn_raises x y n_out [] IndexError ltac:(lia) Eo).
        intros s. unfold lttb_step.
        rewrite (getitem_nth x 0 0%Q) by lia.
        rewrite (getitem_nth y 0 0%Q) by lia. cbn [bind].
        rewrite getitem_empty. reflexivity.
    + assert (Ly0 : len y = 0) by lia.
      assert (Hx : x = []) by (destruct x; [reflexivity|unfold len in *; simpl in *; lia]).
      destruct (exact_offset_zero n_out Hout) as [offset Eo].
      rewrite <- Ly0 in Eo. subst x.
      destruct (Z.eq_dec n_out 3) as [->|Hn].
      * apply (lttb_no_turn_raises [] y offset Eo). left. apply getitem_empty.
      * apply (lttb_first_turn_raises [] y n_out offset IndexError ltac:(lia) Eo).
        intros s. unfold lttb_step. rewrite getitem_empty. reflexivity.
  - intros Ly. unfold _lttb. rewrite Ly, exact_offset_two by assumption.
    reflexivity.
  - intros Hy3 Hyn.
    pose proof (exact_offset_general (len y) n_out Hout Hy3) as Eo.
    set (m := len y - 2) in *. set (d := n_out - 2) in *.
    set (L := - (- ((len y - 1) * d) / m)) in *.
    assert (HL : d + 1 <= L).
    { unfold L. assert (- ((len y - 1) * d) / m <= - (d + 1)); [|lia].
      replace (- ((len y - 1) * d)) with ((- (d + 1)) * m + (m - d))
        by (unfold m; ring).
      rewrite Z.div_add_l by (unfold m; lia).
      assert ((m - d) / m <= 0); [|lia].
      assert ((m - d) / m < 0); [|lia].
      apply Z.div_lt_upper_bound; unfold m, d; lia. }
    apply (lttb_first_turn_raises x y n_out _ ValueError ltac:(lia) Eo).
    intros s.
    apply (lttb_step_empty_bucket x y _ 0 0 s (nth 0 x 0%Q) (nth 0 y 0%Q) 1 1
             (1 + 2 * m / d)).
    + apply (getitem_nth x 0 0%Q). lia.
    + apply (getitem_nth y 0 0%Q). lia.
    + rewrite (getitem_nth _ 0 0) by (rewrite len_map, len_range; unfold d in *; lia).
      change (nth (Z.to_nat 0) ?l 0) with (zth l 0).
      rewrite zth_map_range by (unfold d in *; lia). reflexivity.
    + rewrite (getitem_nth _ (0 + 1) 0) by (rewrite len_map, len_range; unfold d in *; lia).
      change (nth (Z.to_nat (0 + 1)) ?l 0) with (zth l (0 + 1)).
      rewrite zth_map_range by (unfold d in *; lia).
      rewrite Z.mul_1_l, Z.div_small by (unfold m, d; lia). reflexivity.
    + rewrite (getitem_nth _ (0 + 2) 0) by (rewrite len_map, len_range; unfold d in *; lia).
      change (nth (Z.to_nat (0 + 2)) ?l 0) with (zth l (0 + 2)).
      rewrite zth_map_range by (unfold d in *; lia). reflexivity.
    + apply py_slice_empty.
    + apply py_slice_empty.
Qed.

(** X6.  In exact arithmetic, for [x] and [y] of the same length [n] and
    [n_out >= 3], the outcome of [_lttb] is decided by [n]: [IndexError]
    for [n <= 1], [ZeroDivisionError] for [n = 2], [ValueError] (an empty
    first bucket) for [3 <= n < n_out], and a selection for [n >= n_out]. *)
Theorem lttb_outcome_by_length {U : Uninit} (x y : list Q) (n_out : Z) :
  len x = len y -> 3 <= n_out ->
  (len y <= 1 -> _lttb x y n_out = Raise IndexError) /\
  (len y = 2 -> _lttb x y n_out = Raise ZeroDivisionError) /\
  (3 <= len y -> len y < n_out -> _lttb x y n_out = Raise ValueError) /\
  (n_out <= len y -> exists r, _lttb x y n_out = Ok r).
Proof.
  intros Hlen Hout.
  destruct (lttb_short_core x y n_out Hlen Hout) as (H1 & H2 & H3).
  repeat split; try assumption.
  intros Hn. destruct (exact_run x y n_out Hout Hlen Hn) as (r & Er & _).
  now exists r.
Qed.

Lemma lttb_outcome_by_length_witness :
  let x := map inject_Z [0; 1; 2] in
  let y := map inject_Z [0; 1; 0] in
  (len y <= 1 -> _lttb (U := zeroed) x y 4 = Raise IndexError) /\
  (len y = 2 -> _lttb (U := zeroed) x y 4 = Raise ZeroDivisionError) /\
  (3 <= len y -> len y < 4 -> _lttb (U := zeroed) x y 4 = Raise ValueError) /\
  (4 <= len y -> exists r, _lttb (U := zeroed) x y 4 = Ok r).
Proof.
  intros x y.
  apply (lttb_outcome_by_length (U := zeroed) x y 4).
  - reflexivity.
  - lia.
Defined.

(** ** The buckets in exact arithmetic *)




(** ** Collinear points, in exact arithmetic *)












(** ** Change of origin and of unit, in exact arithmetic *)









(** ** The operation with the "lttb" algorithm, in exact arithmetic *)

Lemma operand_after_cast {F} `{Float64 F} (ys : ndarray F) :
  exists yv,
    operand (if is_bool_dtype ys then astype_int8 ys else ys) = Ok yv /\
    len yv = ndarray_len ys.
Proof.
  destruct ys as [l|l|l]; simpl; eexists; split; try reflexivity;
    now rewrite ?len_map.
Qed.

(** X10.  In exact arithmetic, for an element whose first dimension is a
    float64 array and whose two dimensions have as many values as the
    element has rows: with the algorithm "lttb" and [3 <= width < len],
    [_process] is the row selection [iloc] of the (filtered) element at
    exactly [width] strictly increasing positions, the first being 0 and the
    last the last row. *)
Theorem process_lttb_selection {E} {U : Uninit} {EL : Element Q E}
  (p : params Q) (element : E) (xs : list Q) :
  algorithm p = "lttb"%string -> 3 <= width p ->
  width p < element_len (ranged p element) ->
  dimension_values (ranged p element) 0 = float64_array xs ->
  len xs = element_len (ranged p element) ->
  ndarray_len (dimension_values (ranged p element) 1)
  = element_len (ranged p element) ->
  exists samples,
    _process p element = iloc (ranged p element) samples /\
    len samples = width p /\ strictly_increasing samples /\
    zth samples 0 = 0 /\
    zth samples (width p - 1) = element_len (ranged p element) - 1.
Proof.
  intros Ha Hw Hlt Hx Lx Ly. unfold _process.
  destruct (Z.leb_spec (element_len (ranged p element)) (width p)); [lia|].
  rewrite Ha. cbn [dict_getitem _ALGORITHMS lookup String.eqb Ascii.eqb
                   Bool.eqb bind].
  unfold lttb_selector. rewrite Hx. cbn [operand bind].
  destruct (operand_after_cast (dimension_values (ranged p element) 1))
    as (yv & Ey & Lyv).
  rewrite Ey. cbn [bind].
  destruct (exact_selection_shape xs yv (width p) Hw ltac:(lia) ltac:(lia))
    as (r & Er & Hr & Hinc & H0 & Hlast).
  rewrite Er. cbn [bind]. exists r.
  repeat split; try assumption. lia.
Qed.

Lemma process_lttb_selection_witness :
  let t := {| rows := [(0#1, false); (1#1, true); (2#1, false); (3#1, true);
                       (4#1, true)]%Q |} in
  let p := {| x_range := None; width := 3; algorithm := "lttb"%string |} in
  exists samples,
    _process (U := zeroed) (EL := bool_table) p t
    = iloc (Element := bool_table) (ranged (EL := bool_table) p t) samples /\
    len samples = width p /\ strictly_increasing samples /\
    zth samples 0 = 0 /\
    zth samples (width p - 1)
    = element_len (Element := bool_table) (ranged (EL := bool_table) p t) - 1.
Proof.
  intros t p.
  apply (process_lttb_selection (U := zeroed) (EL := bool_table) p t
           (map inject_Z [0; 1; 2; 3; 4])).
  - reflexivity.
  - vm_compute. discriminate.
  - vm_compute. reflexivity.
  - reflexivity.
  - reflexivity.
  - reflexivity.
Defined.

(** ** The stride of [_nth_point], in exact arithmetic *)

Lemma ceil_quot_bounds (n s : Z) :
  0 < s -> s * (- (- n / s)) - s < n <= s * (- (- n / s)).
Proof.
  intros Hs.
  pose proof (Z.div_mod (- n) s ltac:(lia)) as E.
  pose proof (Z.mod_pos_bound (- n) s Hs) as B. nia.
Qed.

(** X12.  In exact arithmetic, for a series of [n >= 0] points and
    [n_out >= 1], the expression that [_nth_point] returns, once
    [n_samples] is [n], is the list of the multiples of
    [stride = max(1, ceil(n / n_out))] below [n], in increasing order: at
    most [n_out] of them, each a position of the series. *)
Theorem nth_indices_are_multiples (n n_out : Z) :
  0 <= n -> 1 <= n_out ->
  exists r,
    nth_indices (F := Q) n n_out = Ok r /\
    r = map (fun i => i * Z.max 1 (- (- n / n_out))) (range (len r)) /\
    len r <= n_out /\
    (forall i, In i r <->
               0 <= i < n /\ i mod Z.max 1 (- (- n / n_out)) = 0).
Proof.
  intros Hn Hout. unfold nth_indices, ceil_div.
  destruct (Z.eqb_spec n_out 0); [lia|].
  cbn [fceil fdiv of_int exact_Q]. rewrite Qceiling_quot. cbn [bind].
  set (stride := Z.max 1 (- (- n / n_out))).
  assert (Hs : 0 < stride) by (unfold stride; lia).
  unfold np_arange_int. destruct (Z.eqb_spec stride 0); [lia|].
  rewrite Z.sub_0_r.
  set (L := - (- n / stride)).
  pose proof (ceil_quot_bounds n stride Hs) as HL. fold L in HL.
  pose proof (ceil_quot_bounds n n_out ltac:(lia)) as Hc.
  assert (HL0 : 0 <= L) by nia.
  assert (Hlen : len (map (fun i => 0 + i * stride) (range L)) = L)
    by (rewrite len_map, len_range; lia).
  eexists. split; [reflexivity|]. rewrite Hlen.
  split; [apply map_ext; intros i; lia|].
  split.
  - assert (n <= stride * n_out) by (unfold stride; nia). nia.
  - intros i. rewrite in_map_iff. split.
    + intros (j & <- & Hj). apply in_range_iff in Hj.
      split; [nia|]. rewrite Z.add_0_l. apply Z.mod_mul. lia.
    + intros [Hi Hm]. exists (i / stride).
      pose proof (Z.div_mod i stride ltac:(lia)) as E. rewrite Hm in E.
      split; [lia|]. apply in_range_iff.
      assert (0 <= i / stride) by (apply Z.div_pos; lia). nia.
Qed.

Lemma nth_indices_are_multiples_witness :
  exists r,
    nth_indices (F := Q) 100 10 = Ok r /\
    r = map (fun i => i * Z.max 1 (- (- 100 / 10))) (range (len r)) /\
    len r <= 10 /\
    (forall i, In i r <->
               0 <= i < 100 /\ i mod Z.max 1 (- (- 100 / 10)) = 0).
Proof.
  apply (nth_indices_are_multiples 100 10); lia.
Defined.

(** ** Short series in binary64 *)

(** X13.  In binary64, whatever the floats that [x] and [y] hold (NaN and
    infinities included), for [3 <= n_out <= n <= 40] and [x], [y] of the
    same length [n], [_lttb] returns [n_out] strictly increasing indices
    from 0 to [n - 1]. *)
Theorem binary64_small_selection {U : Uninit} (x y : list spec_float)
  (n_out : Z) :
  3 <= n_out -> len x = len y -> n_out <= len y -> len y <= 40 ->
  exists r, _lttb x y n_out = Ok r /\
            len r = n_out /\ strictly_increasing r /\
            zth r 0 = 0 /\ zth r (n_out - 1) = len y - 1.
Proof.
  intros Hout Hlen Hn H40.
  destruct (binary64_buckets_small (len y) n_out Hout Hn H40)
    as (offset & Eo & Hoff).
  destruct (lttb_run x y n_out offset Hout Hlen Eo Hoff)
    as (r & Er & Hr & H0 & Hlast & Hin & _).
  exists r. rewrite Hlen in Hlast. repeat split; try assumption.
  apply (containment_increasing (len y) n_out offset); assumption.
Qed.

Lemma binary64_small_selection_witness :
  let x := map (of_int (F := spec_float)) [0; 1; 2; 3; 4; 5] in
  let y := [of_int 3; S754_nan; of_int 4; S754_infinity false; of_int 5;
            of_int 9] in
  exists r, _lttb (U := zeroed) x y 5 = Ok r /\
            len r = 5 /\ strictly_increasing r /\
            zth r 0 = 0 /\ zth r (5 - 1) = len y - 1.
Proof.
  intros x y.
  apply (binary64_small_selection (U := zeroed) x y 5).
  - lia.
  - reflexivity.
  - vm_compute. discriminate.
  - vm_compute. discriminate.
Defined.

(** ** Further properties of the operation and of the selection *)

(** X15.  For an element whose [iloc] returns as many rows as it is given
    indices, and without a range: what [_process] returns is returned as it
    is by a second call with the same parameters. *)
Theorem process_idempotent {F E} {FA : Float64 F} {U : Uninit}
  {EL : Element F E} (p : params F) (element result : E) :
  (forall e samples e', iloc e samples = Ok e' -> element_len e' = len samples) ->
  x_range p = None ->
  _process p element = Ok result ->
  _process p result = Ok result.
Proof.
  intros Hiloc Hnone Hr.
  assert (Hle : element_len result <= width p).
  { destruct (process_ok_cases p element result Hiloc Hr)
      as [[_ Hle]|(_ & _ & _ & Hw)]; lia. }
  unfold _process, ranged. rewrite Hnone.
  destruct (Z.leb_spec (element_len result) (width p)); [reflexivity|lia].
Qed.

Lemma process_idempotent_witness :
  let p := {| x_range := None; width := 3; algorithm := "lttb"%string |} in
  let result := {| rows := [(0#1, false); (1#1, true); (4#1, true)]%Q |} in
  _process (U := zeroed) (EL := bool_table) p result = Ok result.
Proof.
  intros p result.
  apply (process_idempotent (U := zeroed) (EL := bool_table) p
           {| rows := [(0#1, false); (1#1, true); (2#1, false); (3#1, true);
                       (4#1, true)]%Q |} result).
  - apply table_iloc_len.
  - reflexivity.
  - vm_compute. reflexivity.
Defined.



(** X14.  In exact arithmetic, when the output count is the length of the
    series, [n_out = n >= 3], every bucket holds one position and [_lttb]
    returns all the positions, 0, 1, ..., n - 1. *)
Theorem lttb_full_resolution {U : Uninit} (x y : list Q) :
  len x = len y -> 3 <= len y ->
  _lttb x y (len y) = Ok (range (len y)).
Proof.
  intros Hlen Hn.
  destruct (exact_run x y (len y) Hn Hlen ltac:(lia))
    as (r & Er & Lr & H0 & Hlast & Hin & _).
  rewrite Er. f_equal.
  assert (Cell : forall k, 0 <= k < len y -> zth r k = k).
  { intros k Hk.
    destruct (Z.eq_dec k 0) as [->|N0]; [assumption|].
    destruct (Z.eq_dec k (len y - 1)) as [->|N1]; [lia|].
    specialize (Hin (k - 1) ltac:(lia)). unfold in_bucket in Hin.
    rewrite !zth_exact_table in Hin by lia.
    replace (k - 1 + 1) with k in Hin by lia.
    rewrite !Z.div_mul in Hin by lia. lia. }
  apply (nth_ext r (range (len y)) 0 0).
  - pose proof (len_range (len y)) as Hr. unfold len in *. lia.
  - intros i Hi. change (Z.of_nat (length r) = len y) in Lr.
    pose proof (nth_range (len y) (Z.of_nat i) 0 ltac:(lia)) as R.
    rewrite Nat2Z.id in R. rewrite R.
    specialize (Cell (Z.of_nat i) ltac:(lia)). unfold zth in Cell.
    now rewrite Nat2Z.id in Cell.
Qed.

Lemma lttb_full_resolution_witness :
  let x := map inject_Z [0; 1; 2; 3; 4] in
  let y := map inject_Z [0; 1; 0; 1; 1] in
  _lttb (U := zeroed) x y (len y) = Ok (range (len y)).
Proof.
  intros x y.
  apply (lttb_full_resolution (U := zeroed) x y).
  - reflexivity.
  - vm_compute. discriminate.
Defined.
